(** * Orchestration core of the blog-automation agents

    A shallow embedding of the control, retry, scoring and selection layers
    of the multi-agent blog pipeline:

    - [agents/base_agent.py]            retry executor and transient-error classifier
    - [agents/content_checker_agent.py] quality gate (checks, score, decision)
    - [agents/topic_discovery_agent.py] topic selector and stale-workflow sweep
    - [agents/manager_agent.py]         workflow state machine

    Conventions.  Python [str] is [string] (a sequence of 8-bit characters;
    case mapping and whitespace are the ASCII ones).  Python [float] and
    [Decimal] quantities are exact rationals [Q].  A [dict] with a fixed set
    of keys written by this code base is a record whose optional keys are
    [option] fields; a [dict] used as a table is a [gmap]; a [set] is a
    [gset].  Exceptions are values of [PyError]; a call that may raise
    returns a sum.  The DynamoDB table is a [gmap] from workflow id to
    record; [random] and the stage agents are inputs of the model. *)

From Stdlib Require Import Ascii String QArith Qminmax Qpower Lqa.
From stdpp Require Import gmap strings list.

(* ===================================================================== *)
(** * Part I: definitions                                                 *)
(* ===================================================================== *)

(** ** Python string primitives *)

Module Text.

Definition is_upper (c : ascii) : bool :=
  let n := nat_of_ascii c in (65 <=? n)%nat && (n <=? 90)%nat.

Definition lower_char (c : ascii) : ascii :=
  if is_upper c then ascii_of_nat (nat_of_ascii c + 32) else c.

(** [s.lower()] *)
Fixpoint lower (s : string) : string :=
  match s with
  | EmptyString => EmptyString
  | String c s' => String (lower_char c) (lower s')
  end.

(** [pat in s] for two strings: [pat] occurs in [s] as a substring. *)
Fixpoint substring_in (pat s : string) : bool :=
  match s with
  | EmptyString => String.prefix pat EmptyString
  | String _ s' => String.prefix pat s || substring_in pat s'
  end.

(** The characters [str.split()] treats as separators. *)
Definition is_space (c : ascii) : bool :=
  let n := nat_of_ascii c in
  ((9 <=? n)%nat && (n <=? 13)%nat) || ((28 <=? n)%nat && (n <=? 32)%nat).

(** [s.split()]: maximal runs of non-whitespace characters, in order.
    [cur] is the word being read, if any. *)
Fixpoint split_from (cur : option string) (s : string) : list string :=
  match s with
  | EmptyString => match cur with Some w => [w] | None => [] end
  | String c s' =>
      if is_space c then
        match cur with
        | Some w => w :: split_from None s'
        | None => split_from None s'
        end
      else
        split_from (Some (match cur with Some w => w | None => EmptyString end
                          +:+ String c EmptyString)) s'
  end.

Definition split (s : string) : list string := split_from None s.

(** [x in xs] for a list of strings. *)
Definition str_in_list (x : string) (xs : list string) : bool :=
  existsb (String.eqb x) xs.

(** [a < b] on strings: code-point order, which is also the byte order
    DynamoDB uses for string attributes. *)
Definition str_lt (a b : string) : bool := String.ltb a b.

(** [s.count(sub)] for a non-empty [sub]: the occurrences of [sub] in [s]
    counted from the left without overlap.  [skip] is the number of
    characters still covered by the occurrence counted last. *)
Fixpoint count_from (sub : string) (skip : nat) (s : string) : nat :=
  match s with
  | EmptyString => 0
  | String _ s' =>
      match skip with
      | S k => count_from sub k s'
      | O =>
          if String.prefix sub s
          then S (count_from sub (String.length sub - 1) s')
          else count_from sub 0 s'
      end
  end.

(** [s.count(sub)]; the empty string occurs once at every position. *)
Definition count (sub s : string) : nat :=
  match sub with
  | EmptyString => S (String.length s)
  | _ => count_from sub 0 s
  end.

End Text.

(** ** Exceptions and results of calls that may raise *)

(** An exception as the code observes it: [type(e).__name__] and [str(e)]. *)
Record PyError := mkError { error_type : string; error_message : string }.

(** ** agents/base_agent.py *)

Module BaseAgent.

(** What one invocation of a callable does. *)
Inductive Attempt (A : Type) :=
| Ok (a : A)
| Fail (e : PyError).
Arguments Ok {A} a.
Arguments Fail {A} e.

(** How [retry_with_backoff] ends.  [ReturnedNone] is the fall-through
    after the loop with no exception recorded. *)
Inductive Outcome (A : Type) :=
| Returned (a : A)
| Raised (e : PyError)
| ReturnedNone.
Arguments Returned {A} a.
Arguments Raised {A} e.
Arguments ReturnedNone {A}.

(** [log_event] calls of the retry code, by call site. *)
Inductive LogEvent :=
| LogFailedAfterRetries (max_retries : Z) (err : string)        (* ERROR *)
| LogRetrying (attempt : Z) (delay : Q) (err : string)          (* WARNING *)
| LogTransientAlreadyRetried (err : string).                    (* ERROR *)

(** The effects of the executor besides those of the operation:
    [time.sleep] calls, log lines, and how many numbers were drawn from
    [random]. *)
Record Effects := mkEffects {
  sleeps : list Q;
  logs : list LogEvent;
  draws : nat
}.

Definition no_effects : Effects := mkEffects [] [] 0.

Definition transient_patterns : list string :=
  [ "timeout"; "connection"; "throttl"; "rate limit"; "service unavailable";
    "internal server error"; "500"; "502"; "503"; "504"; "temporar" ].

Definition transient_types : list string :=
  [ "TimeoutError"; "ConnectionError"; "BrokenPipeError"; "IncompleteRead" ].

Definition is_transient_error (error : PyError) : bool :=
  let error_message := Text.lower (error_message error) in
  let error_type := error_type error in
  if existsb (fun pattern => Text.substring_in pattern error_message)
             transient_patterns
  then true
  else if Text.str_in_list error_type transient_types then true
  else false.

Section Retry.
Context {St A : Type}.

(** A callable with hidden state: one invocation from state [s]. *)
Definition Operation := St -> Attempt A * St.

(** The values successive [random.random()] calls return. *)
Variable random : nat -> Q.

(** [random.uniform(a, b)] at the [n]-th draw. *)
Definition uniform (a b : Q) (n : nat) : Q := (a + (b - a) * random n)%Q.

Variable operation : Operation.
Variables (max_retries : Z) (base_delay max_delay exponential_base : Q).
Variable jitter : bool.

(** [min(base_delay * (exponential_base ** attempt), max_delay)] *)
Definition backoff_delay (attempt : Z) : Q :=
  Qmin (base_delay * exponential_base ^ attempt) max_delay.

(** The delay slept after a failed attempt that is not the last:
    the backoff delay, perturbed by up to a quarter of itself when
    [jitter] is set.  Returns the delay and the updated draw count. *)
Definition sleep_delay (attempt : Z) (drawn : nat) : Q * nat :=
  let delay := backoff_delay attempt in
  if jitter then
    let jitter_range := (delay * (25 # 100))%Q in
    ((delay + uniform (- jitter_range) jitter_range drawn)%Q, S drawn)
  else (delay, drawn).

(** The body of [for attempt in range(max_retries + 1)], with
    [remaining] iterations left. *)
Fixpoint retry_loop (remaining : nat) (attempt : Z)
    (last_exception : option PyError) (s : St) (eff : Effects)
    : Outcome A * (St * Effects) :=
  match remaining with
  | O =>
      match last_exception with
      | Some e => (Raised e, (s, eff))
      | None => (ReturnedNone, (s, eff))
      end
  | S remaining' =>
      match operation s with
      | (Ok a, s') => (Returned a, (s', eff))
      | (Fail e, s') =>
          if (attempt =? max_retries)%Z then
            (Raised e,
             (s', mkEffects (sleeps eff)
                    (logs eff ++ [LogFailedAfterRetries max_retries (error_message e)])
                    (draws eff)))
          else
            let '(delay, drawn) := sleep_delay attempt (draws eff) in
            retry_loop remaining' (attempt + 1)%Z (Some e) s'
              (mkEffects (sleeps eff ++ [delay])
                 (logs eff ++ [LogRetrying attempt delay (error_message e)])
                 drawn)
      end
  end.

Definition retry_with_backoff (s : St) (eff : Effects)
    : Outcome A * (St * Effects) :=
  retry_loop (Z.to_nat (max_retries + 1)) 0%Z None s eff.

End Retry.

(** [safe_invoke_claude]: [invoke] stands for the [_invoke] closure around
    [invoke_claude].  The classifier is consulted only after
    [retry_with_backoff] has raised, and only to log. *)
Definition safe_invoke_claude {St A : Type} (random : nat -> Q)
    (invoke : @Operation St A) (max_retries : Z) (s : St) (eff : Effects)
    : Outcome A * (St * Effects) :=
  match retry_with_backoff random invoke max_retries 2 30 2 true s eff with
  | (Raised e, (s', eff')) =>
      if is_transient_error e then
        (Raised e,
         (s', mkEffects (sleeps eff')
                (logs eff' ++ [LogTransientAlreadyRetried (error_message e)])
                (draws eff')))
      else (Raised e, (s', eff'))
  | r => r
  end.

(** Instrumentation used to count invocations: the operation together
    with a call counter, as a test double would keep one. *)
Definition counted {St A : Type} (op : @Operation St A)
    : @Operation (St * nat) A :=
  fun '(s, n) => let '(r, s') := op s in (r, (s', S n)).

(** The hidden state before invocation number [i] (from 0) when the
    operation is invoked repeatedly from [s], and what that invocation
    does. *)
Fixpoint state_before {St A : Type} (op : @Operation St A) (s : St) (i : nat) : St :=
  match i with
  | O => s
  | S i' => state_before op (snd (op s)) i'
  end.


(** An operation that follows a script: invocation [i] does [script i]. *)
Definition scripted {A : Type} (script : nat -> Attempt A) : @Operation nat A :=
  fun i => (script i, S i).

(** [validate_input]: the required fields that are not keys of the input
    are collected in the order required; if there are any, a [ValueError]
    naming them is raised, otherwise the answer is [True]. *)
Definition validate_input {V : Type} (input_data : gmap string V)
    (required_fields : list string) : PyError + bool :=
  let missing_fields :=
    filter (fun field => input_data !! field = None) required_fields in
  match missing_fields with
  | [] => inr true
  | _ =>
      inl (mkError "ValueError"
             ("Missing required fields: " +:+ String.concat ", " missing_fields))
  end.

End BaseAgent.

(** ** The workflow table *)

Module Store.

(** An item of the [blog-workflow-state] table, with the attributes the
    modelled code reads or writes.  An attribute an item does not have
    is [None]. *)
Record WorkflowRecord := mkRecord {
  status : option string;
  created_at : option string;
  trigger_type : option string;
  retry_count : option Z;
  max_retries : option Z;
  schema_version : option string;
  topic_title : option string;
  topic_category : option string;
  article_title : option string;
  approval_token : option string;
  approval_status : option string     (* approval_data.status *)
}.

Definition empty_record : WorkflowRecord :=
  mkRecord None None None None None None None None None None None.

(** [update_item] creates the item when the key is absent. *)
Definition update_item (workflow_id : string)
    (set : WorkflowRecord -> WorkflowRecord)
    (table : gmap string WorkflowRecord) : gmap string WorkflowRecord :=
  <[workflow_id := set (default empty_record (table !! workflow_id))]> table.

Definition set_status (s : string) (r : WorkflowRecord) : WorkflowRecord :=
  mkRecord (Some s) (created_at r) (trigger_type r) (retry_count r)
    (max_retries r) (schema_version r) (topic_title r) (topic_category r)
    (article_title r) (approval_token r) (approval_status r).

Definition set_approval (token : string) (r : WorkflowRecord) : WorkflowRecord :=
  mkRecord (status r) (created_at r) (trigger_type r) (retry_count r)
    (max_retries r) (schema_version r) (topic_title r) (topic_category r)
    (article_title r) (Some token) (Some "awaiting_approval").

Definition set_article (topic_title topic_category article_title : string)
    (r : WorkflowRecord) : WorkflowRecord :=
  mkRecord (status r) (created_at r) (trigger_type r) (retry_count r)
    (max_retries r) (schema_version r) (Some topic_title) (Some topic_category)
    (Some article_title) (approval_token r) (approval_status r).

(** [SET retry_count = :count] *)
Definition set_retry_count (count : Z) (r : WorkflowRecord) : WorkflowRecord :=
  mkRecord (status r) (created_at r) (trigger_type r) (Some count)
    (max_retries r) (schema_version r) (topic_title r) (topic_category r)
    (article_title r) (approval_token r) (approval_status r).

(** [scan(FilterExpression=...)]: the items that satisfy the filter,
    with their keys. *)
Definition scan (keep : WorkflowRecord -> bool)
    (table : gmap string WorkflowRecord) : list (string * WorkflowRecord) :=
  filter (fun kv => keep kv.2 = true) (map_to_list table).

End Store.

(** ** agents/content_checker_agent.py *)

Module ContentChecker.

(** Calls that may raise inside a [try] block: the error or the value. *)
Definition Try (A : Type) : Type := PyError + A.

Definition try_bind {A B : Type} (m : Try A) (k : A -> Try B) : Try B :=
  match m with
  | inl e => inl e
  | inr a => k a
  end.

Notation "'let?' x := m 'in' k" := (try_bind m (fun x => k))
  (at level 10, x name, m at level 100, k at level 200).

(** A Portable Text block and its spans, with the keys the checker reads
    ([_type], [children], [text]; an absent key is its default). *)
Record Span := mkSpan { text : string }.
Record Block := mkBlock { _type : string; children : list Span }.

Record Article := mkArticle {
  title : string;
  portable_text_body : list Block;
  word_count : Z
}.

Record ResearchReport := mkReport {
  key_facts : list string;          (* research_synthesis.key_facts *)
  must_include : list string        (* content_recommendations.must_include *)
}.

(** The result dictionary of one check.  Every check returns a ["passed"]
    key; the other keys depend on the check, and a check that caught an
    internal error returns only ["passed": True] and ["error"]. *)
Inductive CheckDetails :=
| FactualDetails (verified_facts total_facts : nat)
    (missing_facts : list string) (accuracy_rate : Q)
| SeoDetails (keyword_density_status meta_title_status
              meta_description_status : string)
    (internal_links_count images_count : nat)
| AlignmentDetails (items_present items_total : nat)
    (missing_items : list string) (coverage : Q)
| UniquenessDetails (max_similarity : Q)
| QualityDetails (word_count : Z) (flesch_reading_ease : Q)
| ErrorDetails (error : string).

Record CheckResult := mkCheck { passed : bool; details : CheckDetails }.

(** [check.get("accuracy_rate", 0)] *)
Definition get_accuracy_rate (c : CheckResult) : Q :=
  match details c with
  | FactualDetails _ _ _ r => r
  | _ => 0
  end.

(** [check.get("keyword_density", {}).get("status")] *)
Definition get_keyword_density_status (c : CheckResult) : option string :=
  match details c with
  | SeoDetails kd _ _ _ _ => Some kd
  | _ => None
  end.

(** [check.get("meta_title", {}).get("status")] *)
Definition get_meta_title_status (c : CheckResult) : option string :=
  match details c with
  | SeoDetails _ mt _ _ _ => Some mt
  | _ => None
  end.

Definition _extract_text_from_portable_text (portable_text : list Block) : string :=
  let text_parts :=
    flat_map (fun block =>
      if String.eqb (_type block) "block" then
        filter (fun t => t <> EmptyString) (map text (children block))
      else []) portable_text in
  String.concat " " text_parts.

(** [any(keyword in haystack for keyword in keywords)] *)
Definition any_keyword_in (keywords : list string) (haystack : string) : bool :=
  existsb (fun keyword => Text.substring_in keyword haystack) keywords.

(** The loop shared in shape by the factual and the alignment check:
    counts the entries one of whose first [n] words occurs in the
    article text, and collects the others. *)
Fixpoint count_present (n : nat) (article_text : string) (entries : list string)
    (found : nat) (missing : list string) : nat * list string :=
  match entries with
  | [] => (found, missing)
  | entry :: rest =>
      let keywords := take n (Text.split (Text.lower entry)) in
      if any_keyword_in keywords (Text.lower article_text)
      then count_present n article_text rest (S found) missing
      else count_present n article_text rest found (missing ++ [entry])
  end.

(** [found / max(len(entries), 1)] *)
Definition rate (found total : nat) : Q :=
  (inject_Z (Z.of_nat found) / inject_Z (Z.of_nat (Nat.max total 1)))%Q.

Definition _check_factual_accuracy (article : Article)
    (research_report : ResearchReport) : CheckResult :=
  let article_text := _extract_text_from_portable_text (portable_text_body article) in
  let key_facts := key_facts research_report in
  let '(facts_found, missing_facts) :=
    count_present 3 article_text key_facts 0 [] in
  let accuracy_rate := rate facts_found (length key_facts) in
  mkCheck (Qle_bool (7 # 10) accuracy_rate)
    (FactualDetails facts_found (length key_facts) (take 3 missing_facts)
       accuracy_rate).

Definition _check_research_alignment (article : Article)
    (research_report : ResearchReport) : CheckResult :=
  let article_text := _extract_text_from_portable_text (portable_text_body article) in
  let must_include := must_include research_report in
  let '(items_found, missing_items) :=
    count_present 2 article_text must_include 0 [] in
  let coverage := rate items_found (length must_include) in
  mkCheck (Qle_bool (8 # 10) coverage)
    (AlignmentDetails items_found (length must_include) (take 3 missing_items)
       coverage).

(** The [weights] dictionary, in the order it is iterated. *)
Definition weights : list (string * Q) :=
  [ ("factual_accuracy", 25 # 100);
    ("seo_compliance", 25 # 100);
    ("research_alignment", 20 # 100);
    ("uniqueness", 15 # 100);
    ("quality", 15 # 100) ].

(** What the specification lets a criterion contribute to the score:
    its fixed weight when it passed, nothing otherwise. *)
Definition contribution (passed : bool) (weight : Q) : Q :=
  if passed then weight else 0%Q.

(** [checks.get(check_name, {}).get("passed", False)] *)
Definition check_passed (checks : gmap string CheckResult) (check_name : string)
    : bool :=
  match checks !! check_name with
  | Some check_result => passed check_result
  | None => false
  end.

Definition _calculate_quality_score (checks : gmap string CheckResult) : Q :=
  fold_left
    (fun score '(check_name, weight) =>
       if check_passed checks check_name then (score + weight)%Q else score)
    weights 0%Q.

Record Feedback := mkFeedback {
  decision : string;
  strengths : list string;
  weaknesses : list string;
  revisions : list string;
  feedback_error : option string
}.

(** [checks[key]]: a missing key raises [KeyError], whose [str] is the
    quoted key. *)
Definition index_check (checks : gmap string CheckResult) (key : string)
    : Try CheckResult :=
  match checks !! key with
  | Some c => inr c
  | None => inl (mkError "KeyError" ("'" +:+ key +:+ "'"))
  end.

(** The [try] body of [_make_decision]. *)
Definition make_decision_body (checks : gmap string CheckResult)
    (quality_score : Q) : Try (string * Feedback) :=
  let? factual := index_check checks "factual_accuracy" in
  let? alignment := index_check checks "research_alignment" in
  let? uniqueness := index_check checks "uniqueness" in
  let critical_checks := [passed factual; passed alignment; passed uniqueness] in
  let? seo := index_check checks "seo_compliance" in
  let? quality := index_check checks "quality" in
  let seo_passed := passed seo in
  let quality_passed := passed quality in
  (* Analyze results *)
  let '(strengths, weaknesses, revisions) :=
    if Qle_bool (9 # 10) (get_accuracy_rate factual)
    then (["Excellent factual accuracy"], [], [])
    else if negb (passed factual)
    then ([], ["Some key facts missing"], ["Add missing facts from research"])
    else ([], [], []) in
  let '(strengths, weaknesses, revisions) :=
    if passed seo
    then (strengths ++ ["Strong SEO compliance"], weaknesses, revisions)
    else
      let revisions :=
        if bool_decide (get_keyword_density_status seo = Some "needs_adjustment")
        then revisions ++ ["Adjust keyword density"] else revisions in
      let revisions :=
        if bool_decide (get_meta_title_status seo = Some "good")
        then revisions else revisions ++ ["Optimize meta title length"] in
      (strengths, weaknesses ++ ["SEO needs optimization"], revisions) in
  let '(strengths, weaknesses, revisions) :=
    if passed uniqueness
    then (strengths ++ ["Unique content angle"], weaknesses, revisions)
    else (strengths, weaknesses ++ ["Too similar to recent articles"],
          revisions ++ ["Differentiate from recent content"]) in
  let strengths :=
    if Qle_bool (9 # 10) quality_score
    then strengths ++ ["High overall quality"] else strengths in
  (* Decision logic *)
  if negb (forallb id critical_checks) then
    inr ("REJECTED",
         mkFeedback "Article rejected due to critical issues"
           strengths weaknesses revisions None)
  else if negb seo_passed || negb quality_passed then
    inr ("NEEDS_REVISION",
         mkFeedback "Article needs minor revisions"
           strengths weaknesses revisions None)
  else
    inr ("APPROVED",
         mkFeedback "Article approved for publication"
           strengths
           (match weaknesses with [] => ["None identified"] | _ => weaknesses end)
           [] None).

Definition _make_decision (checks : gmap string CheckResult) (quality_score : Q)
    : string * Feedback :=
  match make_decision_body checks quality_score with
  | inr r => r
  | inl e =>
      ("NEEDS_REVISION",
       mkFeedback "Error in validation" [] [] [] (Some (error_message e)))
  end.

Definition _get_recommendation (status : string) (quality_score : Q) : string :=
  if String.eqb status "APPROVED" then
    if Qle_bool (9 # 10) quality_score
    then "APPROVE - Excellent quality, ready for publication"
    else "APPROVE - Good quality, ready for publication"
  else if String.eqb status "NEEDS_REVISION" then
    "REVIEW - Minor issues found, recommend human review"
  else "REJECT - Critical issues found, needs significant revision".

(** The [validation_result] dictionary [execute] returns. *)
Record ValidationResult := mkValidation {
  status : string;
  quality_score : Q;
  checks : gmap string CheckResult;
  feedback : Feedback;
  revisions_needed : list string;
  approval_recommendation : string
}.

(** The [checks] dictionary [execute] builds from the five checks. *)
Definition collect_checks (factual seo alignment uniqueness quality : CheckResult)
    : gmap string CheckResult :=
  <["factual_accuracy" := factual]>
    (<["seo_compliance" := seo]>
       (<["research_alignment" := alignment]>
          (<["uniqueness" := uniqueness]>
             (<["quality" := quality]> ∅)))).

(** [execute] from the point where the checks have run: score, decide,
    assemble the output. *)
Definition validate (checks : gmap string CheckResult) : ValidationResult :=
  let quality_score := _calculate_quality_score checks in
  let '(status, feedback) := _make_decision checks quality_score in
  mkValidation status quality_score checks feedback (revisions feedback)
    (_get_recommendation status quality_score).

(** [execute] on an article and a research report.  The SEO, uniqueness
    and readability checks are not modelled; their result dictionaries
    are taken as given. *)
Definition execute (article : Article) (research_report : ResearchReport)
    (seo uniqueness quality : CheckResult) : ValidationResult :=
  validate
    (collect_checks (_check_factual_accuracy article research_report)
       seo
       (_check_research_alignment article research_report)
       uniqueness quality).

(** The test in the loop of the two coverage checks: whether one of the
    first [n] words of an entry occurs in the text. *)
Definition mentioned (n : nat) (article_text entry : string) : bool :=
  any_keyword_in (take n (Text.split (Text.lower entry))) (Text.lower article_text).

(** [_calculate_jaccard_similarity]: the words of the two texts as sets,
    and the size of their intersection over that of their union (over 1
    when both are empty). *)
Definition _calculate_jaccard_similarity (text1 text2 : string) : Q :=
  let words1 : gset string := list_to_set (Text.split (Text.lower text1)) in
  let words2 : gset string := list_to_set (Text.split (Text.lower text2)) in
  let intersection := words1 ∩ words2 in
  let union := words1 ∪ words2 in
  rate (size intersection) (size union).



















End ContentChecker.

(** ** agents/seo_writer_agent.py *)

Module SEOWriter.


(** [max(1, word_count // 200)] *)
Definition reading_time (word_count : Z) : Z := Z.max 1 (word_count / 200).

End SEOWriter.

(** ** UTC timestamps *)

Module Clock.

(** A [datetime] in UTC, by its fields. *)
Record datetime := mkDatetime {
  year : N; month : N; day : N;
  hour : N; minute : N; second : N; microsecond : N
}.

Definition is_leap (y : N) : bool :=
  (((y mod 4 =? 0) && negb (y mod 100 =? 0)) || (y mod 400 =? 0))%N.

Definition days_in_month (y m : N) : N :=
  if (m =? 2)%N then (if is_leap y then 29 else 28)%N
  else if ((m =? 4) || (m =? 6) || (m =? 9) || (m =? 11))%N then 30%N
  else 31%N.


(** [d - timedelta(hours=24)]: the same time on the previous day.  Before
    the first representable day the subtraction raises. *)
Definition minus_24h (d : datetime) : PyError + datetime :=
  let at_day y m dd :=
    mkDatetime y m dd (hour d) (minute d) (second d) (microsecond d) in
  if (1 <? day d)%N then inr (at_day (year d) (month d) (day d - 1)%N)
  else if (1 <? month d)%N then
    inr (at_day (year d) (month d - 1)%N
           (days_in_month (year d) (month d - 1)%N))
  else if (1 <? year d)%N then inr (at_day (year d - 1)%N 12%N 31%N)
  else inl (mkError "OverflowError" "date value out of range").

Definition digit (n : N) : ascii := ascii_of_N (48 + n mod 10).

(** The last [width] decimal digits of [n], most significant first. *)
Fixpoint digits (width : nat) (n : N) : string :=
  match width with
  | O => EmptyString
  | S w => digits w (n / 10)%N +:+ String (digit n) EmptyString
  end.

(** The part of the ISO form after the seconds: the microseconds, left
    out when they are zero, and the UTC offset. *)
Definition fraction_and_offset (us : N) : string :=
  if (us =? 0)%N then "+00:00" else "." +:+ digits 6 us +:+ "+00:00".

(** [d.isoformat()] for a datetime whose [tzinfo] is UTC. *)
Definition isoformat (d : datetime) : string :=
  digits 4 (year d) +:+ "-" +:+ digits 2 (month d) +:+ "-" +:+ digits 2 (day d)
  +:+ "T" +:+ digits 2 (hour d) +:+ ":" +:+ digits 2 (minute d) +:+ ":"
  +:+ digits 2 (second d) +:+ fraction_and_offset (microsecond d).




End Clock.

(** ** agents/topic_discovery_agent.py *)

Module TopicDiscovery.

Record Topic := mkTopic {
  title : string;
  keywords : list string;
  category : string
}.

Definition TOPIC_BANK : list Topic :=
  [
    mkTopic "Cycling Through Sri Lanka's Cultural Triangle"
      ["sri lanka cultural triangle cycling"; "anuradhapura polonnaruwa bike tour";
       "ancient cities cycling route"; "sigiriya cycling experience"]
      "Cultural Routes";
    mkTopic "Hill Country Cycling Adventure Through Ceylon's Tea Estates"
      ["sri lanka hill country cycling"; "nuwara eliya bike tour";
       "tea plantation cycling route"; "ella to kandy cycling"]
      "Hill Country";
    mkTopic "Coast to Coast: Sri Lanka's Ultimate Cycling Journey"
      ["coast to coast cycling sri lanka"; "cross country bike tour";
       "sri lanka cycling holiday"; "galle to trincomalee cycling"]
      "Epic Routes";
    mkTopic "Cycling Sri Lanka's Southern Coast and Beaches"
      ["south coast cycling sri lanka"; "galle mirissa bike route";
       "beach cycling holiday"; "coastal cycling tour"]
      "Coastal Routes";
    mkTopic "Knuckles Mountain Range: Sri Lanka's Premier Cycling Challenge"
      ["knuckles mountain range cycling"; "mountain biking sri lanka";
       "challenging cycling routes"; "knuckles bike tour"]
      "Mountain Biking";
    mkTopic "Wildlife Cycling Safari: Yala to Udawalawe Adventure"
      ["wildlife cycling sri lanka"; "yala national park bike tour";
       "elephant cycling safari"; "udawalawe cycling route"]
      "Wildlife";
    mkTopic "Cycling Sri Lanka: Complete Planning Guide for First-Timers"
      ["cycling sri lanka guide"; "plan bike tour sri lanka";
       "sri lanka cycling tips"; "bike holiday planning"]
      "Planning";
    mkTopic "When to Cycle Sri Lanka: Seasonal Guide and Weather Patterns"
      ["best time cycling sri lanka"; "sri lanka cycling season";
       "monsoon cycling routes"; "dry season bike tours"]
      "Planning";
    mkTopic "Gravel Cycling Adventures in Rural Sri Lanka"
      ["gravel biking sri lanka"; "gravel cycling routes";
       "rural cycling adventures"; "off-road bike tours"]
      "Adventure";
    mkTopic "Cycling Through Sri Lanka's Spice Gardens and Plantations"
      ["spice garden cycling tour"; "cinnamon plantation cycling";
       "agricultural cycling routes"; "farm to table bike tour"]
      "Cultural Experience";
    mkTopic "Family Cycling Holidays in Sri Lanka: Safe Routes and Activities"
      ["family cycling sri lanka"; "kid friendly bike tours";
       "safe cycling routes families"; "family bike holiday asia"]
      "Family Travel";
    mkTopic "E-Bike Tours: Exploring Sri Lanka Without Breaking a Sweat"
      ["e-bike tours sri lanka"; "electric bicycle touring";
       "assisted cycling holiday"; "ebike rental sri lanka"]
      "E-Bike";
    mkTopic "Cycling and Yoga Retreats: Wellness in Sri Lanka"
      ["cycling yoga retreat sri lanka"; "wellness bike tour";
       "active meditation holiday"; "mindful cycling vacation"]
      "Wellness";
    mkTopic "Cycling Sri Lanka's Coffee Triangle: From Bean to Cup"
      ["coffee cycling tour sri lanka"; "coffee plantation bike route";
       "specialty coffee cycling"; "haputale cycling experience"]
      "Culinary";
    mkTopic "Multi-Day Cycling Expeditions Across Sri Lanka"
      ["multi day cycling tour sri lanka"; "week long bike expedition";
       "cycling expedition asia"; "supported bike tour sri lanka"]
      "Epic Routes";
    mkTopic "Cycling Safety and Road Conditions in Sri Lanka"
      ["cycling safety sri lanka"; "road conditions bike touring";
       "safe cycling tips asia"; "sri lanka traffic cycling"]
      "Safety";
    mkTopic "Solo Cycling in Sri Lanka: Independent Travel Guide"
      ["solo cycling sri lanka"; "independent bike tour";
       "self guided cycling route"; "solo traveler bike holiday"]
      "Solo Travel";
    mkTopic "Cycling and Wildlife Photography Safari in Sri Lanka"
      ["cycling photography tour"; "wildlife photography cycling";
       "photo safari bike tour"; "photography cycling holiday"]
      "Photography";
    mkTopic "Budget-Friendly Cycling Tours and Backroads of Sri Lanka"
      ["budget cycling sri lanka"; "affordable bike tours";
       "backroads cycling routes"; "cheap cycling holiday"]
      "Budget Travel";
    mkTopic "Luxury Cycling Holidays: Five-Star Tours of Sri Lanka"
      ["luxury cycling sri lanka"; "premium bike tours";
       "five star cycling holiday"; "luxury bike tour asia"]
      "Luxury";
    mkTopic "Cycling Through Sri Lanka's Rice Paddies and Farming Villages"
      ["rice paddy cycling tour"; "farming village bike route";
       "rural cycling sri lanka"; "agricultural cycling"]
      "Rural Routes";
    mkTopic "Cycling the Adam's Peak Pilgrimage Route"
      ["adams peak cycling"; "pilgrimage cycling route";
       "sri pada bike tour"; "spiritual cycling journey"]
      "Cultural Routes";
    mkTopic "Night Sky Cycling: Stargazing Tours in Rural Sri Lanka"
      ["night cycling sri lanka"; "stargazing bike tour";
       "astronomy cycling experience"; "dark sky cycling"]
      "Unique Experiences";
    mkTopic "Cycling and Ayurveda: Holistic Wellness Tours"
      ["ayurveda cycling retreat"; "holistic wellness bike tour";
       "traditional healing cycling"; "ayurvedic cycling holiday"]
      "Wellness"
  ].

(** The keys of the analysis [_select_unique_topic] reads. *)
Record Analysis := mkAnalysis {
  gap_categories : list string;
  underrepresented_categories : list string
}.

Record TopicCandidate := mkCandidate {
  candidate_title : string;
  candidate_keywords : list string;
  candidate_category : string;
  uniqueness_score : Q;
  selection_reason : string
}.

(** [random.choice(seq)] when the generator's next number is [r]: an
    element at an index below [len(seq)]; [IndexError] on an empty
    sequence. *)
Definition random_choice {A : Type} (r : nat) (seq : list A) : PyError + A :=
  match seq !! (r mod length seq) with
  | Some x => inr x
  | None => inl (mkError "IndexError" "Cannot choose from an empty sequence")
  end.

(** The set of lower-cased titles of the published articles that have a
    non-empty [topic_title]. *)
Definition published_titles (published_articles : list Store.WorkflowRecord)
    : gset string :=
  list_to_set
    (omap (fun article =>
             match Store.topic_title article with
             | Some t => if decide (t = EmptyString) then None
                         else Some (Text.lower t)
             | None => None
             end) published_articles).

(** What the specification calls a title that exact-matches history
    without regard to case: some published article carries a
    [topic_title] with the same lower-cased form. *)
Definition matches_published (t : string)
    (published_articles : list Store.WorkflowRecord) : Prop :=
  exists article t', article ∈ published_articles /\
                     Store.topic_title article = Some t' /\
                     Text.lower t' = Text.lower t.

(** The [try] body of [_select_unique_topic]. *)
Definition select_unique_topic_body (analysis : Analysis)
    (published_articles : list Store.WorkflowRecord) (r : nat)
    : PyError + TopicCandidate :=
  let published_titles := published_titles published_articles in
  let available_topics :=
    filter (fun topic => Text.lower (title topic) ∉ published_titles) TOPIC_BANK in
  let available_topics :=
    match available_topics with
    | [] => TOPIC_BANK
    | _ => available_topics
    end in
  let priority_categories : gset string :=
    list_to_set (gap_categories analysis ++ underrepresented_categories analysis) in
  let priority_topics :=
    filter (fun topic => category topic ∈ priority_categories) available_topics in
  match
    match priority_topics with
    | [] => random_choice r available_topics
    | _ => random_choice r priority_topics
    end
  with
  | inl e => inl e
  | inr selected =>
      let uniqueness_score :=
        if decide (Text.lower (title selected) ∈ published_titles)
        then (5 # 10)%Q else 1%Q in
      inr (mkCandidate (title selected) (keywords selected) (category selected)
             uniqueness_score
             (if decide (category selected ∈ priority_categories)
              then "Gap category: " +:+ category selected
              else "Random selection from available topics"))
  end.

(** [_select_unique_topic], with the numbers [r] and [r'] the random
    generator gives to the selection and to the fallback. *)
Definition _select_unique_topic (analysis : Analysis)
    (published_articles : list Store.WorkflowRecord) (r r' : nat)
    : PyError + TopicCandidate :=
  match select_unique_topic_body analysis published_articles r with
  | inr result => inr result
  | inl _ =>
      match random_choice r' TOPIC_BANK with
      | inl e => inl e
      | inr fallback =>
          inr (mkCandidate (title fallback) (keywords fallback) (category fallback)
                 (5 # 10) "Fallback - error during selection")
      end
  end.

Record CleanupSummary := mkSummary {
  deleted_workflows : nat;
  cutoff_time : option string;
  reason : option string;
  cleanup_error : option string
}.

(** The filter of the sweep: [status = 'awaiting_approval'] and
    [created_at < cutoff_timestamp], both on string attributes. *)
Definition stale (cutoff_timestamp : string) (item : Store.WorkflowRecord) : bool :=
  bool_decide (Store.status item = Some "awaiting_approval") &&
  match Store.created_at item with
  | Some c => Text.str_lt c cutoff_timestamp
  | None => false
  end.

(** The loop of the sweep: delete each scanned item and count. *)
Fixpoint delete_all (stale_workflows : list (string * Store.WorkflowRecord))
    (table : gmap string Store.WorkflowRecord) (deleted_count : nat)
    : gmap string Store.WorkflowRecord * nat :=
  match stale_workflows with
  | [] => (table, deleted_count)
  | workflow :: rest => delete_all rest (delete workflow.1 table) (S deleted_count)
  end.

(** [_cleanup_stale_workflows] run at time [now] on the table. *)
Definition _cleanup_stale_workflows (now : Clock.datetime)
    (table : gmap string Store.WorkflowRecord)
    : CleanupSummary * gmap string Store.WorkflowRecord :=
  match Clock.minus_24h now with
  | inl e => (mkSummary 0 None None (Some (error_message e)), table)
  | inr cutoff_time =>
      let cutoff_timestamp := Clock.isoformat cutoff_time in
      let stale_workflows := Store.scan (stale cutoff_timestamp) table in
      let '(table', deleted_count) := delete_all stale_workflows table 0 in
      (mkSummary deleted_count (Some cutoff_timestamp)
         (Some "Stale awaiting_approval >24h") None, table')
  end.

(** [counts[k] = counts.get(k, 0) + 1] on a dictionary kept in insertion
    order. *)
Fixpoint bump (k : string) (counts : list (string * nat)) : list (string * nat) :=
  match counts with
  | [] => [(k, 1%nat)]
  | (k', n) :: rest =>
      if String.eqb k' k then (k', S n) :: rest else (k', n) :: bump k rest
  end.

(** [counts.get(k, 0)] *)
Fixpoint counts_get (k : string) (counts : list (string * nat)) : nat :=
  match counts with
  | [] => 0%nat
  | (k', n) :: rest => if String.eqb k' k then n else counts_get k rest
  end.

(** The dictionary [_analyze_articles] returns. *)
Record ArticleAnalysis := mkArticleAnalysis {
  total_articles : nat;
  category_distribution : list (string * nat);
  analysis : Analysis;
  published_titles_sample : list string
}.

(** [_analyze_articles].  The gap categories come out of a set
    difference; the order in which Python lists a set is not fixed, and
    the model lists it as [elements] does. *)
Definition _analyze_articles (articles : list Store.WorkflowRecord)
    : ArticleAnalysis :=
  let category_counts :=
    fold_left
      (fun counts article =>
         bump (default "Unknown" (Store.topic_category article)) counts)
      articles [] in
  let all_titles :=
    omap (fun article =>
            match Store.topic_title article with
            | Some t => if decide (t = EmptyString) then None
                        else Some (Text.lower t)
            | None => None
            end) articles in
  let all_categories : gset string := list_to_set (map category TOPIC_BANK) in
  let covered_categories : gset string := list_to_set (map fst category_counts) in
  let gap_categories := all_categories ∖ covered_categories in
  let underrep_categories :=
    map fst (filter (fun kv => (kv.2 <= 1)%nat) category_counts) in
  mkArticleAnalysis (length articles) category_counts
    (mkAnalysis (elements gap_categories) underrep_categories)
    (take 10 all_titles).

(** How many of the articles fall in a category (an article without
    [topic_category] counts as "Unknown"). *)
Definition articles_in (c : string) (articles : list Store.WorkflowRecord) : nat :=
  length (filter (fun article => default "Unknown" (Store.topic_category article) = c)
            articles).

End TopicDiscovery.

(** ** agents/research_agent.py *)

Module Research.

(** An entry of [primary_keywords], with the keys the modelled code
    reads; [volume] may be absent. *)
Record KeywordEntry := mkKeyword { keyword : string; volume : option Z }.

Record KeywordResearch := mkKeywordResearch {
  primary_keywords : list KeywordEntry;
  secondary_keywords : list string;
  long_tail_keywords : list string;
  keyword_density_target : Q
}.

(** [keywords[3:6] if len(keywords) > 3 else []] *)
Definition secondary (keywords : list string) : list string :=
  if (3 <? length keywords)%nat then take 3 (drop 3 keywords) else [].

(** [_get_static_keyword_data] *)
Definition _get_static_keyword_data (keywords : list string) : KeywordResearch :=
  let primary_keywords :=
    map (fun keyword => mkKeyword keyword (Some 400%Z)) (take 3 keywords) in
  mkKeywordResearch primary_keywords (secondary keywords)
    [ match keywords with
      | first :: _ => first +:+ " guide"
      | [] => "cycling sri lanka guide"
      end;
      match keywords with
      | first :: _ => first +:+ " tips"
      | [] => "cycling sri lanka tips"
      end ]
    (15 # 10).

(** [_fetch_keyword_ideas]: the simulated answer of the API.  Without a
    keyword, [keywords[0]] raises and the handler falls back to the
    static data. *)
Definition _fetch_keyword_ideas (keywords : list string) : KeywordResearch :=
  let primary_keywords :=
    imap (fun i keyword => mkKeyword keyword (Some (500 + Z.of_nat i * 200)%Z))
      (take 3 keywords) in
  match keywords with
  | first :: _ =>
      mkKeywordResearch primary_keywords (secondary keywords)
        [first +:+ " guide"; first +:+ " tips"; "best " +:+ first]
        (15 # 10)
  | [] => _get_static_keyword_data keywords
  end.

(** [not value] for an optional string *)
Definition missing (value : option string) : bool :=
  match value with
  | Some s => String.eqb s ""
  | None => true
  end.

(** [_conduct_keyword_research], given the two credentials it tests and
    what [_get_google_oauth_token] answers. *)
Definition _conduct_keyword_research
    (google_ads_client_id google_ads_refresh_token access_token : option string)
    (keywords : list string) : KeywordResearch :=
  if missing google_ads_client_id || missing google_ads_refresh_token then
    _get_static_keyword_data keywords
  else if missing access_token then
    _get_static_keyword_data keywords
  else
    _fetch_keyword_ideas keywords.

Record Synthesis := mkSynthesis {
  key_facts : list string;
  content_angle : string
}.

(** What [invoke_claude] does for [_synthesize_research]. *)
Inductive Reply :=
| ReplyRaised (e : PyError)
| ReplyText (response : string).

Record InternalLink := mkLink { anchor : string; url : string; context : string }.

Record ContentRecommendations := mkRecommendations {
  target_length : string;
  must_include : list string;
  internal_links : list InternalLink
}.

(** [_generate_content_recommendations], with [topic["category"]]. *)
Definition _generate_content_recommendations (category : string)
    (keyword_research : KeywordResearch) : ContentRecommendations :=
  (* Calculate target word count based on keyword volume *)
  let volumes :=
    map (fun kw => inject_Z (default 400%Z (volume kw)))
      (primary_keywords keyword_research) in
  let avg_volume :=
    (fold_left Qplus volumes 0
     / inject_Z (Z.of_nat (Nat.max (length (primary_keywords keyword_research)) 1)))%Q in
  let target_length :=
    if negb (Qle_bool avg_volume 800) then "3000-3500 words"
    else if negb (Qle_bool avg_volume 400) then "2500-3000 words"
    else "2000-2500 words" in
  mkRecommendations target_length
    [ if Text.substring_in "cultural" (Text.lower category)
      then "UNESCO site descriptions" else "Route details";
      "Best season & weather info";
      "Visa requirements";
      "Safety tips";
      "Recommended tour operators (Across Ceylon)";
      "Accommodation suggestions";
      "Local cultural insights" ]
    [ mkLink (category +:+ " tour package") "/packages/custom-tour"
        ("Experience our guided " +:+ category +:+ " tours") ].

Section Synthesize.

(** [json.loads] on the keys read here: the synthesis, or [None] for a
    [JSONDecodeError]. *)
Variable json_loads : string -> option Synthesis.

(** [_synthesize_research], given what [invoke_claude] does. *)
Definition _synthesize_research (topic_title : string) (reply : Reply) : Synthesis :=
  match reply with
  | ReplyText response =>
      match json_loads response with
      | Some synthesis => synthesis
      | None =>
          (* If Claude doesn't return valid JSON, create structured data *)
          mkSynthesis
            [ "Sri Lanka is a premier cycling destination";
              "Best season for cycling: November to April";
              "UNESCO World Heritage Sites accessible by bike" ]
            "Unique cycling experience combining culture and nature"
      end
  | ReplyRaised _ =>
      mkSynthesis ["Research synthesis failed - using fallback"] topic_title
  end.

(** The [research_report] of [execute]. *)
Record Report := mkResearchReport {
  topic_title : string;
  topic_category : string;
  keyword_research : KeywordResearch;
  research_synthesis : Synthesis;
  content_recommendations : ContentRecommendations
}.

(** The [try] body of [execute] up to the report, for a topic that has
    its title, category and keywords. *)
Definition execute
    (google_ads_client_id google_ads_refresh_token access_token : option string)
    (reply : Reply) (selected_topic : TopicDiscovery.TopicCandidate) : Report :=
  let keyword_research :=
    _conduct_keyword_research google_ads_client_id google_ads_refresh_token
      access_token (TopicDiscovery.candidate_keywords selected_topic) in
  let research_synthesis :=
    _synthesize_research (TopicDiscovery.candidate_title selected_topic) reply in
  mkResearchReport
    (TopicDiscovery.candidate_title selected_topic)
    (TopicDiscovery.candidate_category selected_topic)
    keyword_research research_synthesis
    (_generate_content_recommendations
       (TopicDiscovery.candidate_category selected_topic) keyword_research).

End Synthesize.


End Research.

(** ** agents/manager_agent.py *)

Module Manager.

Inductive WorkflowState :=
| INITIALIZED | CLEANING | DISCOVERING_TOPIC | TOPIC_SELECTED
| RESEARCHING | RESEARCH_COMPLETE | WRITING | DRAFT_COMPLETE | CHECKING
| APPROVED | NEEDS_REVISION | REJECTED | EMAIL_SENT
| PUBLISHED | DECLINED | FAILED.

(** [WorkflowState.X.value] *)
Definition value (s : WorkflowState) : string :=
  match s with
  | INITIALIZED => "initialized"
  | CLEANING => "cleaning"
  | DISCOVERING_TOPIC => "discovering_topic"
  | TOPIC_SELECTED => "topic_selected"
  | RESEARCHING => "researching"
  | RESEARCH_COMPLETE => "research_complete"
  | WRITING => "writing"
  | DRAFT_COMPLETE => "draft_complete"
  | CHECKING => "checking"
  | APPROVED => "approved"
  | NEEDS_REVISION => "needs_revision"
  | REJECTED => "rejected"
  | EMAIL_SENT => "email_sent"
  | PUBLISHED => "published"
  | DECLINED => "declined"
  | FAILED => "failed"
  end.




(** What running one stage agent gives the manager: a dictionary whose
    status is "success", a dictionary whose status is anything else
    (with its optional [error] key), or an exception. *)
Inductive StageRun (A : Type) :=
| StageSuccess (payload : A)
| StageNonSuccess (error : option string)
| StageRaised (e : PyError).
Arguments StageSuccess {A} payload.
Arguments StageNonSuccess {A} error.
Arguments StageRaised {A} e.

Record Image := mkImage { url : string; alt : string }.

(** The keys of the writer's result the manager reads. *)
Record WriterOutput := mkWriterOutput {
  article : ContentChecker.Article;
  images : list Image;
  metadata_word_count : Z;
  metadata_images_sourced : nat
}.

(** The collaborators of one workflow run.  Each stage agent is given
    exactly the outputs of earlier stages the manager passes to it.  The
    agents write to the table only below [agent_states] and delete only
    stale items of other workflows; the status of the running workflow
    is written by the manager alone, so the agents appear here by their
    results.  [ses_accepts] says whether SES takes the message. *)
Record Agents := mkAgents {
  topic_agent : StageRun TopicDiscovery.TopicCandidate;
  research_agent :
    TopicDiscovery.TopicCandidate -> StageRun ContentChecker.ResearchReport;
  writer_agent : ContentChecker.ResearchReport -> StageRun WriterOutput;
  checker_agent :
    ContentChecker.Article -> ContentChecker.ResearchReport ->
    StageRun ContentChecker.ValidationResult;
  generate_token : string -> string;
  ses_accepts : string -> bool
}.

(** The table and the workflows for which [_send_approval_email] was
    entered, in order. *)
Record World := mkWorld {
  table : gmap string Store.WorkflowRecord;
  email_attempts : list string
}.

(** Code that reads and writes the world and may raise. *)
Definition M (A : Type) : Type := World -> (PyError + A) * World.

Definition ret {A : Type} (a : A) : M A := fun w => (inr a, w).

Definition raise {A : Type} (e : PyError) : M A := fun w => (inl e, w).

Definition bind {A B : Type} (m : M A) (k : A -> M B) : M B :=
  fun w =>
    match m w with
    | (inr a, w') => k a w'
    | (inl e, w') => (inl e, w')
    end.

Notation "'let!' x := m 'in' k" := (bind m (fun x => k))
  (at level 10, x name, m at level 100, k at level 200).
Notation "m ;;; k" := (bind m (fun _ => k))
  (at level 100, k at level 200, right associativity).

Definition _update_workflow_status (workflow_id status : string) : M unit :=
  fun w =>
    (inr tt,
     mkWorld (Store.update_item workflow_id (Store.set_status status) (table w))
       (email_attempts w)).

(** The manager's check after a stage: the payload of a success, or the
    exception the manager raises for a non-success result; an exception
    of the stage itself propagates. *)
Definition require_success {A : Type} (failed : string) (result : StageRun A)
    : M A :=
  match result with
  | StageSuccess payload => ret payload
  | StageNonSuccess error =>
      raise (mkError "Exception" (failed +:+ default "Unknown error" error))
  | StageRaised e => raise e
  end.

(** [_send_approval_email]: stores the approval token and data, sends
    through SES, and answers whether that worked; it never raises. *)
Definition _send_approval_email (agents : Agents) (workflow_id : string)
    : M bool :=
  fun w =>
    let approval_token := generate_token agents workflow_id in
    (inr (ses_accepts agents workflow_id),
     mkWorld
       (Store.update_item workflow_id (Store.set_approval approval_token) (table w))
       (email_attempts w ++ [workflow_id])).

(** [_store_article_data]; it never raises. *)
Definition _store_article_data (workflow_id : string)
    (topic : TopicDiscovery.TopicCandidate) (article : ContentChecker.Article)
    : M unit :=
  fun w =>
    (inr tt,
     mkWorld
       (Store.update_item workflow_id
          (Store.set_article (TopicDiscovery.candidate_title topic)
             (TopicDiscovery.candidate_category topic)
             (ContentChecker.title article))
          (table w))
       (email_attempts w)).

Record ArticlePreview := mkPreview {
  preview_title : string;
  preview_word_count : Z;
  preview_images : nat;
  preview_quality_score : Q;
  preview_validation_status : string
}.

(** The dictionary [_execute_workflow] returns. *)
Record WorkflowResult := mkResult {
  result_workflow_id : string;
  result_status : string;
  message : string;
  article_preview : option ArticlePreview;
  validation : option ContentChecker.ValidationResult;
  agents_executed : option nat
}.

(** Step 5 of [_execute_workflow] and what follows it, reached from the
    APPROVED and the NEEDS_REVISION branch alike.  Whether or not the
    email went out the status becomes EMAIL_SENT.  (The metrics calls,
    whose errors are swallowed, are left out.) *)
Definition approval_steps (agents : Agents) (workflow_id : string)
    (selected_topic : TopicDiscovery.TopicCandidate)
    (writer_result : WriterOutput)
    (validation_result : ContentChecker.ValidationResult)
    : M WorkflowResult :=
  let validation_status := ContentChecker.status validation_result in
  let! email_sent := _send_approval_email agents workflow_id in
  (if email_sent : bool
   then _update_workflow_status workflow_id (value EMAIL_SENT)
   else _update_workflow_status workflow_id (value EMAIL_SENT)) ;;;
  _store_article_data workflow_id selected_topic (article writer_result) ;;;
  ret (mkResult workflow_id (value EMAIL_SENT)
         ("Phase 3 workflow completed successfully - " +:+ validation_status)
         (Some (mkPreview (ContentChecker.title (article writer_result))
                  (metadata_word_count writer_result)
                  (metadata_images_sourced writer_result)
                  (ContentChecker.quality_score validation_result)
                  validation_status))
         (Some validation_result)
         (Some 4%nat)).

(** The [try] body of [_execute_workflow]. *)
Definition execute_workflow_body (agents : Agents) (workflow_id : string)
    : M WorkflowResult :=
  (* Step 1: Topic Discovery *)
  _update_workflow_status workflow_id (value DISCOVERING_TOPIC) ;;;
  let! selected_topic :=
    require_success "Topic Discovery failed: " (topic_agent agents) in
  _update_workflow_status workflow_id (value TOPIC_SELECTED) ;;;
  (* Step 2: Research Agent *)
  _update_workflow_status workflow_id (value RESEARCHING) ;;;
  let! research_report :=
    require_success "Research failed: " (research_agent agents selected_topic) in
  _update_workflow_status workflow_id (value RESEARCH_COMPLETE) ;;;
  (* Step 3: SEO Writer Agent *)
  _update_workflow_status workflow_id (value WRITING) ;;;
  let! writer_result :=
    require_success "Writing failed: " (writer_agent agents research_report) in
  _update_workflow_status workflow_id (value DRAFT_COMPLETE) ;;;
  (* Step 4: Content Checker Agent *)
  _update_workflow_status workflow_id (value CHECKING) ;;;
  let! validation_result :=
    require_success "Content checking failed: "
      (checker_agent agents (article writer_result) research_report) in
  let validation_status := ContentChecker.status validation_result in
  (* Update workflow status based on validation *)
  if String.eqb validation_status "APPROVED" then
    _update_workflow_status workflow_id (value APPROVED) ;;;
    approval_steps agents workflow_id selected_topic writer_result validation_result
  else if String.eqb validation_status "NEEDS_REVISION" then
    _update_workflow_status workflow_id (value NEEDS_REVISION) ;;;
    approval_steps agents workflow_id selected_topic writer_result validation_result
  else
    (* REJECTED: no email *)
    _update_workflow_status workflow_id (value REJECTED) ;;;
    ret (mkResult workflow_id (value REJECTED)
           "Article rejected - quality issues found"
           None (Some validation_result) None).

(** [_execute_workflow]: the body, and on any exception the handler
    that records FAILED and raises the exception again. *)
Definition _execute_workflow (agents : Agents) (workflow_id : string)
    : M WorkflowResult :=
  fun w =>
    match execute_workflow_body agents workflow_id w with
    | (inr result, w') => (inr result, w')
    | (inl e, w') =>
        match _update_workflow_status workflow_id (value FAILED) w' with
        | (inr _, w'') => (inl e, w'')
        | (inl e', w'') => (inl e', w'')
        end
    end.

(** [start_workflow], given the id and the creation timestamp it
    derives from the clock. *)
Definition start_workflow (agents : Agents) (workflow_id created_at : string)
    (trigger_type : string) : M (string * string * WorkflowResult) :=
  fun w =>
    let workflow_data :=
      Store.mkRecord (Some (value INITIALIZED)) (Some created_at)
        (Some trigger_type) (Some 0%Z) (Some 2%Z) (Some "2.0")
        None None None None None in
    let w0 := mkWorld (<[workflow_id := workflow_data]> (table w))
                (email_attempts w) in
    match _execute_workflow agents workflow_id w0 with
    | (inr result, w') => (inr (workflow_id, "success", result), w')
    | (inl e, w') =>
        match _update_workflow_status workflow_id (value FAILED) w' with
        | (inr _, w'') => (inl e, w'')
        | (inl e', w'') => (inl e', w'')
        end
    end.

(** The status the table holds for a workflow. *)
Definition persisted_status (workflow_id : string) (w : World) : option string :=
  match table w !! workflow_id with
  | Some item => Store.status item
  | None => None
  end.


(** [get_workflow_state] *)
Definition get_workflow_state (workflow_id : string) : M Store.WorkflowRecord :=
  fun w =>
    match table w !! workflow_id with
    | Some item => (inr item, w)
    | None =>
        (inl (mkError "ValueError" ("Workflow not found: " +:+ workflow_id)), w)
    end.

(** [handle_agent_error]: [agent_name] and [error] only reach the log.
    Every exception of the body is answered with [False]. *)
Definition handle_agent_error (workflow_id agent_name : string) (error : PyError)
    (retry : bool) : M bool :=
  fun w =>
    match get_workflow_state workflow_id w with
    | (inl _, w') => (inr false, w')
    | (inr workflow, w') =>
        let retry_count := default 0%Z (Store.retry_count workflow) in
        let max_retries := default 2%Z (Store.max_retries workflow) in
        if retry && (retry_count <? max_retries)%Z then
          (* Increment retry count *)
          let new_retry_count := (retry_count + 1)%Z in
          (inr true,
           mkWorld
             (Store.update_item workflow_id (Store.set_retry_count new_retry_count)
                (table w'))
             (email_attempts w'))
        else
          (* Max retries reached or retry disabled *)
          match _update_workflow_status workflow_id (value FAILED) w' with
          | (inr _, w'') => (inr false, w'')
          | (inl _, w'') => (inr false, w'')
          end
    end.

(** The answers of successive calls of [handle_agent_error] with the
    default [retry=True], one for each error of the list. *)
Fixpoint handle_agent_errors (workflow_id agent_name : string)
    (errors : list PyError) (w : World) : list bool * World :=
  match errors with
  | [] => ([], w)
  | error :: rest =>
      match handle_agent_error workflow_id agent_name error true w with
      | (inr answer, w') =>
          let '(answers, w'') := handle_agent_errors workflow_id agent_name rest w' in
          (answer :: answers, w'')
      | (inl _, w') => ([], w')
      end
  end.

End Manager.

(** ** multi_agent_handler.py *)

Module Handler.

(** The values of the dictionaries the handler reads. *)
#[local] Unset Elimination Schemes.
Inductive Value :=
| Str (s : string)
| Int (z : Z)
| Float (q : Q)
| Dict (items : list (string * Value)).
#[local] Set Elimination Schemes.

Definition type_name (value : Value) : string :=
  match value with
  | Str _ => "str"
  | Int _ => "int"
  | Float _ => "float"
  | Dict _ => "dict"
  end.

(** [d.get(key)] *)
Fixpoint lookup_key (key : string) (d : list (string * Value)) : option Value :=
  match d with
  | [] => None
  | (k, v) :: rest => if String.eqb k key then Some v else lookup_key key rest
  end.

(** [value.get(key, default)]; only a dictionary has [get]. *)
Definition get (value : Value) (key : string) (default_value : Value)
    : PyError + Value :=
  match value with
  | Dict d => inr (default default_value (lookup_key key d))
  | _ =>
      inl (mkError "AttributeError"
             ("'" +:+ type_name value +:+ "' object has no attribute 'get'"))
  end.

(** [not value], for the result of [d.get(key)] *)
Definition falsy (value : option Value) : bool :=
  match value with
  | None => true
  | Some (Str s) => String.eqb s ""
  | Some (Int z) => (z =? 0)%Z
  | Some (Float q) => Qeq_bool q 0
  | Some (Dict d) => match d with [] => true | _ => false end
  end.

(** [value == s] for a string [s] *)
Definition equals_str (value : Value) (s : string) : bool :=
  match value with
  | Str v => String.eqb v s
  | _ => false
  end.

(** [value > 0] *)
Definition greater_than_zero (value : Value) : PyError + bool :=
  match value with
  | Int z => inr (0 <? z)%Z
  | Float q => inr (negb (Qle_bool q 0))
  | _ =>
      inl (mkError "TypeError"
             ("'>' not supported between instances of '" +:+ type_name value
              +:+ "' and 'int'"))
  end.

Definition try_bind {A B : Type} (m : PyError + A) (k : A -> PyError + B)
    : PyError + B :=
  match m with
  | inr a => k a
  | inl e => inl e
  end.

Notation "'let?' x := m 'in' k" := (try_bind m (fun x => k))
  (at level 10, x name, m at level 100, k at level 200).

(** The dictionary [_execute_workflow] returns, with the keys of the
    preview and of the verdict that the handler asks for. *)
Definition result_dict (result : Manager.WorkflowResult) : Value :=
  Dict
    ([("workflow_id", Str (Manager.result_workflow_id result));
      ("status", Str (Manager.result_status result));
      ("message", Str (Manager.message result))]
     ++ match Manager.article_preview result with
        | Some preview =>
            [("article_preview",
              Dict [("title", Str (Manager.preview_title preview));
                    ("word_count", Int (Manager.preview_word_count preview));
                    ("images", Int (Z.of_nat (Manager.preview_images preview)));
                    ("quality_score", Float (Manager.preview_quality_score preview));
                    ("validation_status",
                     Str (Manager.preview_validation_status preview))])]
        | None => []
        end
     ++ match Manager.validation result with
        | Some verdict =>
            [("validation",
              Dict [("status", Str (ContentChecker.status verdict));
                    ("quality_score", Float (ContentChecker.quality_score verdict))])]
        | None => []
        end).

(** The dictionary [start_workflow] returns. *)
Definition started_dict (started : string * string * Manager.WorkflowResult)
    : list (string * Value) :=
  let '(workflow_id, status, result) := started in
  [("workflow_id", Str workflow_id); ("status", Str status);
   ("result", result_dict result)].

(** The body of the response, before [json.dumps]; [duration_seconds],
    read from the clock, is left out.  A key the body does not have is
    [None]. *)
Record Body := mkBody {
  success : bool;
  body_workflow_id : option Value;
  body_status : option Value;
  body_quality_score : option Value;
  body_validation_status : option Value;
  body_message : option Value;
  body_topic : option Value;
  body_word_count : option Value;
  body_error : option Value
}.

Record Response := mkResponse { statusCode : Z; body : Body }.

Definition failure (error_msg : Value) : Response :=
  mkResponse 500
    (mkBody false None None None None None None None (Some error_msg)).

Section Responses.

(** How an f-string shows a value that is no string. *)
Variable render : Value -> string.

(** [f"{value}"] *)
Definition format (value : Value) : string :=
  match value with
  | Str s => s
  | _ => render value
  end.

(** The [try] body of [multi_agent_workflow_handler] after
    [start_workflow] has returned the dictionary [started]. *)
Definition respond (started : list (string * Value)) : PyError + Response :=
  let result := Dict started in
  (* Extract workflow details *)
  let workflow_id := lookup_key "workflow_id" started in
  (* Check if workflow succeeded *)
  if falsy workflow_id then
    let? error_msg := get result "error" (Str "Unknown error in workflow execution") in
    inr (failure error_msg)
  else
    let? workflow_status := get result "status" (Str "unknown") in
    (* Extract metrics from result *)
    let? article_preview := get result "article_preview" (Dict []) in
    let? validation := get result "validation" (Dict []) in
    let? extracted :=
      (* For REJECTED articles, article_preview is empty but validation has data *)
      if equals_str workflow_status "rejected" then
        let? quality_score := get validation "quality_score" (Int 0) in
        let? validation_status := get validation "status" (Str "REJECTED") in
        inr (Str "Article Rejected", quality_score, Int 0, validation_status)
      else
        let? topic_title := get article_preview "title" (Str "N/A") in
        let? fallback_score := get validation "quality_score" (Int 0) in
        let? quality_score := get article_preview "quality_score" fallback_score in
        let? word_count := get article_preview "word_count" (Int 0) in
        let? fallback_status := get validation "status" (Str "unknown") in
        let? validation_status :=
          get article_preview "validation_status" fallback_status in
        inr (topic_title, quality_score, word_count, validation_status) in
    let '(topic_title, quality_score, word_count, validation_status) := extracted in
    let? _ := greater_than_zero word_count in
    (* Return success response *)
    let? message :=
      get result "message"
        (Str ("Multi-agent workflow completed: " +:+ format validation_status)) in
    let rejected := equals_str workflow_status "rejected" in
    inr (mkResponse 200
           (mkBody true workflow_id (Some workflow_status)
              (Some quality_score) (Some validation_status) (Some message)
              (* Only include topic and word_count if article wasn't rejected *)
              (if rejected then None else Some topic_title)
              (if rejected then None else Some word_count)
              None)).

(** [multi_agent_workflow_handler]: the manager starts a workflow with
    the trigger type of the event ("manual" when the event has none);
    whatever is raised becomes a response with status code 500. *)
Definition multi_agent_workflow_handler (agents : Manager.Agents)
    (workflow_id created_at : string) (event_trigger_type : option string)
    : Manager.World -> Response * Manager.World :=
  fun w =>
    match Manager.start_workflow agents workflow_id created_at
            (default "manual" event_trigger_type) w with
    | (inr started, w') =>
        match respond (started_dict started) with
        | inr response => (response, w')
        | inl e => (failure (Str (error_message e)), w')
        end
    | (inl e, w') => (failure (Str (error_message e)), w')
    end.

(** [multi_agent_daily_handler] *)
Definition multi_agent_daily_handler (agents : Manager.Agents)
    (workflow_id created_at : string) (event_trigger_type : option string)
    : Manager.World -> Response * Manager.World :=
  multi_agent_workflow_handler agents workflow_id created_at (Some "daily").

End Responses.

End Handler.

(* ===================================================================== *)
(** * Part II: properties                                                 *)
(* ===================================================================== *)

Import BaseAgent.

Example is_transient_503 :
  is_transient_error (mkError "Exception" "503 Service Unavailable") = true.
Proof. reflexivity. Qed.

Example is_transient_value_error :
  is_transient_error (mkError "ValueError" "Invalid input") = false.
Proof. reflexivity. Qed.

Example split_ex : Text.split "  Hello  big world " = ["Hello"; "big"; "world"].
Proof. reflexivity. Qed.

(** ** Strings *)

Lemma prefix_lower p s :
  String.prefix p s = true -> String.prefix (Text.lower p) (Text.lower s) = true.
Proof.
  revert s. induction p as [|a p IH]; intros [|b s]; simpl; try done.
  destruct (Ascii.ascii_dec a b) as [->|Hne]; [|done].
  intros Hp. destruct (Ascii.ascii_dec _ _); [auto | done].
Qed.

Lemma substring_in_lower p s :
  Text.substring_in p s = true ->
  Text.substring_in (Text.lower p) (Text.lower s) = true.
Proof.
  induction s as [|c s IH].
  - destruct p; simpl; done.
  - cbn [Text.substring_in Text.lower]. intros [H|H]%orb_true_iff; apply orb_true_iff.
    + left. apply (prefix_lower p (String c s)). exact H.
    + right. auto.
Qed.

Lemma str_in_list_spec x xs : Text.str_in_list x xs = true <-> In x xs.
Proof.
  unfold Text.str_in_list. rewrite existsb_exists. split.
  - intros (y & Hy & ->%String.eqb_eq). done.
  - intros H. exists x. split; [done | apply String.eqb_refl].
Qed.

(** ** The transient-error classifier *)

Lemma is_transient_error_by_type ty msg :
  In ty transient_types -> is_transient_error (mkError ty msg) = true.
Proof.
  intros H. unfold is_transient_error. simpl error_type.
  destruct (existsb _ _); [done|].
  apply str_in_list_spec in H. by rewrite H.
Qed.

Lemma is_transient_error_by_pattern ty msg p :
  In p transient_patterns ->
  Text.substring_in p (Text.lower msg) = true ->
  is_transient_error (mkError ty msg) = true.
Proof.
  intros Hp Hs. unfold is_transient_error.
  replace (existsb _ _) with true; [done|].
  symmetry. apply existsb_exists. exists p. done.
Qed.

(** C6. [is_transient_error] answers true for a ConnectionError, for a
    TimeoutError, and for an exception of any type whose message contains
    "503"; it answers false for a ValueError and for a KeyError when none
    of the fixed text patterns occurs in the message (matched, as the
    classifier matches, without regard to case). *)
Theorem is_transient_error_classification (ty msg : string) :
  (ty = "ConnectionError" \/ ty = "TimeoutError" \/
   Text.substring_in "503" msg = true ->
   is_transient_error (mkError ty msg) = true) /\
  ((ty = "ValueError" \/ ty = "KeyError") ->
   (forall p, In p transient_patterns ->
              Text.substring_in p (Text.lower msg) = false) ->
   is_transient_error (mkError ty msg) = false).
Proof.
  split.
  - intros [-> | [-> | H503]].
    + apply is_transient_error_by_type. simpl. tauto.
    + apply is_transient_error_by_type. simpl. tauto.
    + apply (is_transient_error_by_pattern ty msg "503").
      * simpl. tauto.
      * apply (substring_in_lower "503" msg H503).
  - intros Hty Hnone. unfold is_transient_error. simpl error_type.
    simpl error_message.
    replace (existsb _ transient_patterns) with false.
    + destruct Hty as [-> | ->]; reflexivity.
    + symmetry. apply not_true_is_false. intros (p & Hin & Hp)%existsb_exists.
      rewrite (Hnone p Hin) in Hp. done.
Qed.

Lemma is_transient_error_classification_witness :
  is_transient_error (mkError "ConnectionError" "peer reset") = true /\
  is_transient_error (mkError "TimeoutError" "") = true /\
  is_transient_error (mkError "Exception" "HTTP 503 from upstream") = true /\
  is_transient_error (mkError "ValueError" "Invalid input") = false /\
  is_transient_error (mkError "KeyError" "'Missing key'") = false.
Proof.
  split; [|split; [|split; [|split]]].
  - apply (is_transient_error_classification "ConnectionError" "peer reset"). tauto.
  - apply (is_transient_error_classification "TimeoutError" ""). tauto.
  - apply (is_transient_error_classification "Exception" "HTTP 503 from upstream").
    right; right. reflexivity.
  - apply (is_transient_error_classification "ValueError" "Invalid input").
    + tauto.
    + intros p Hp. simpl in Hp.
      repeat (destruct Hp as [<- | Hp]; [reflexivity|]). destruct Hp.
  - apply (is_transient_error_classification "KeyError" "'Missing key'").
    + tauto.
    + intros p Hp. simpl in Hp.
      repeat (destruct Hp as [<- | Hp]; [reflexivity|]). destruct Hp.
Defined.

(** ** The retry executor *)

Section RetryProperties.
Context {St A : Type}.
Variable random : nat -> Q.
Variable op : @Operation St A.
Variables (max_retries : Z) (base_delay max_delay exponential_base : Q).
Variable jitter : bool.




Lemma state_before_S_last s i :
  state_before op s (S i) = (op (state_before op s i)).2.
Proof. revert s. induction i as [|i IH]; intros s; simpl; [done | apply IH]. Qed.


End RetryProperties.



(** ** The quality gate *)

Import ContentChecker.

Lemma lookup_collect_checks f s r u q :
  let checks := collect_checks f s r u q in
  checks !! "factual_accuracy" = Some f /\
  checks !! "seo_compliance" = Some s /\
  checks !! "research_alignment" = Some r /\
  checks !! "uniqueness" = Some u /\
  checks !! "quality" = Some q.
Proof. unfold collect_checks. by simplify_map_eq. Qed.

Lemma check_passed_collect_checks f s r u q :
  let checks := collect_checks f s r u q in
  check_passed checks "factual_accuracy" = passed f /\
  check_passed checks "seo_compliance" = passed s /\
  check_passed checks "research_alignment" = passed r /\
  check_passed checks "uniqueness" = passed u /\
  check_passed checks "quality" = passed q.
Proof.
  destruct (lookup_collect_checks f s r u q) as (Hf & Hs & Hr & Hu & Hq).
  unfold check_passed. cbv zeta. by rewrite Hf, Hs, Hr, Hu, Hq.
Qed.

(** C2. The weighted quality score is the sum of the fixed weights of
    exactly the passing criteria (factual 0.25, SEO 0.25, alignment 0.20,
    uniqueness 0.15, quality 0.15); with all five passing it is 1.0, and
    with only the factual criterion failing it is 0.75. *)
Theorem quality_score_sums_passing_weights :
  (forall checks : gmap string CheckResult,
     (_calculate_quality_score checks ==
        contribution (check_passed checks "factual_accuracy") (25 # 100)
        + contribution (check_passed checks "seo_compliance") (25 # 100)
        + contribution (check_passed checks "research_alignment") (20 # 100)
        + contribution (check_passed checks "uniqueness") (15 # 100)
        + contribution (check_passed checks "quality") (15 # 100))%Q) /\
  (forall f s r u q : CheckResult,
     (_calculate_quality_score (collect_checks f s r u q) ==
        contribution (passed f) (25 # 100)
        + contribution (passed s) (25 # 100)
        + contribution (passed r) (20 # 100)
        + contribution (passed u) (15 # 100)
        + contribution (passed q) (15 # 100))%Q) /\
  (forall df ds dr du dq : CheckDetails,
     (_calculate_quality_score
        (collect_checks (mkCheck true df) (mkCheck true ds) (mkCheck true dr)
           (mkCheck true du) (mkCheck true dq)) == 1)%Q /\
     (_calculate_quality_score
        (collect_checks (mkCheck false df) (mkCheck true ds) (mkCheck true dr)
           (mkCheck true du) (mkCheck true dq)) == 75 # 100)%Q).
Proof.
  assert (Hgen : forall checks : gmap string CheckResult,
     (_calculate_quality_score checks ==
        contribution (check_passed checks "factual_accuracy") (25 # 100)
        + contribution (check_passed checks "seo_compliance") (25 # 100)
        + contribution (check_passed checks "research_alignment") (20 # 100)
        + contribution (check_passed checks "uniqueness") (15 # 100)
        + contribution (check_passed checks "quality") (15 # 100))%Q).
  { intros checks. unfold _calculate_quality_score, weights. cbn [fold_left].
    destruct (check_passed checks "factual_accuracy"),
             (check_passed checks "seo_compliance"),
             (check_passed checks "research_alignment"),
             (check_passed checks "uniqueness"),
             (check_passed checks "quality"); reflexivity. }
  assert (Hfive : forall f s r u q : CheckResult,
     (_calculate_quality_score (collect_checks f s r u q) ==
        contribution (passed f) (25 # 100)
        + contribution (passed s) (25 # 100)
        + contribution (passed r) (20 # 100)
        + contribution (passed u) (15 # 100)
        + contribution (passed q) (15 # 100))%Q).
  { intros f s r u q. rewrite Hgen.
    destruct (check_passed_collect_checks f s r u q) as (-> & -> & -> & -> & ->).
    reflexivity. }
  split; [exact Hgen | split; [exact Hfive |]].
  intros df ds dr du dq. split; rewrite Hfive; reflexivity.
Qed.

Lemma make_decision_body_collect f s r u q score :
  exists fb,
    make_decision_body (collect_checks f s r u q) score =
      inr (if negb (passed f && passed r && passed u) then "REJECTED"
           else if negb (passed s) || negb (passed q) then "NEEDS_REVISION"
           else "APPROVED", fb).
Proof.
  destruct (lookup_collect_checks f s r u q) as (Hf & Hs & Hr & Hu & Hq).
  unfold make_decision_body, index_check. cbv zeta in Hf, Hs, Hr, Hu, Hq.
  rewrite Hf, Hr, Hu, Hs, Hq. cbn [try_bind forallb id].
  repeat match goal with
         | |- context [let '(_, _) := ?x in _] => destruct x as [[? ?] ?]
         end.
  rewrite andb_true_r, andb_assoc.
  destruct (passed f && passed r && passed u); cbn [negb]; [|eauto].
  destruct (negb (passed s) || negb (passed q)); eauto.
Qed.

(** C3. For every combination of the five check outcomes the decision is
    REJECTED when the factual, the research-alignment or the uniqueness
    check failed; otherwise NEEDS_REVISION when the SEO or the quality
    check failed; otherwise APPROVED. *)
Theorem make_decision_by_check_outcomes (f s r u q : CheckResult) (score : Q) :
  let status := (_make_decision (collect_checks f s r u q) score).1 in
  (passed f = false \/ passed r = false \/ passed u = false ->
   status = "REJECTED") /\
  (passed f = true -> passed r = true -> passed u = true ->
   passed s = false \/ passed q = false ->
   status = "NEEDS_REVISION") /\
  (passed f = true -> passed r = true -> passed u = true ->
   passed s = true -> passed q = true ->
   status = "APPROVED").
Proof.
  cbv zeta. unfold _make_decision.
  destruct (make_decision_body_collect f s r u q score) as (fb & ->).
  destruct (passed f), (passed r), (passed u), (passed s), (passed q);
    cbn; intuition congruence.
Qed.

Lemma make_decision_by_check_outcomes_witness :
  let ok := mkCheck true (ErrorDetails "") in
  let ko := mkCheck false (ErrorDetails "") in
  (_make_decision (collect_checks ok ok ok ko ok) 1).1 = "REJECTED" /\
  (_make_decision (collect_checks ok ok ok ok ko) 1).1 = "NEEDS_REVISION" /\
  (_make_decision (collect_checks ok ok ok ok ok) 1).1 = "APPROVED".
Proof.
  intros ok ko. split; [|split].
  - apply (make_decision_by_check_outcomes ok ok ok ko ok 1). simpl. tauto.
  - apply (make_decision_by_check_outcomes ok ok ok ok ko 1); simpl; tauto.
  - apply (make_decision_by_check_outcomes ok ok ok ok ok 1); reflexivity.
Defined.

Lemma status_validate checks :
  status (validate checks) = (_make_decision checks (_calculate_quality_score checks)).1.
Proof. unfold validate. by destruct (_make_decision _ _). Qed.




Example isoformat_ex1 :
  Clock.isoformat (Clock.mkDatetime 2024 2 29 12 0 1 0) = "2024-02-29T12:00:01+00:00".
Proof. reflexivity. Qed.

Example isoformat_ex2 :
  Clock.isoformat (Clock.mkDatetime 2024 2 29 12 0 1 1500) = "2024-02-29T12:00:01.001500+00:00".
Proof. reflexivity. Qed.

Example minus_24h_leap :
  Clock.minus_24h (Clock.mkDatetime 2024 3 1 12 0 0 0)
  = inr (Clock.mkDatetime 2024 2 29 12 0 0 0).
Proof. reflexivity. Qed.

(** ** The topic selector *)

Lemma lower_empty s : Text.lower s = EmptyString <-> s = EmptyString.
Proof. destruct s; simpl; split; congruence. Qed.

Lemma elem_of_published_titles x published :
  x ∈ TopicDiscovery.published_titles published <->
  exists article t, article ∈ published /\ Store.topic_title article = Some t /\
                    t <> EmptyString /\ Text.lower t = x.
Proof.
  unfold TopicDiscovery.published_titles.
  rewrite elem_of_list_to_set, list_elem_of_omap. split.
  - intros (article & Hin & Hx). destruct (Store.topic_title article) as [t|] eqn:Ht;
      [|done]. destruct (decide (t = EmptyString)); [done|].
    injection Hx as <-. eauto 6.
  - intros (article & t & Hin & Ht & Hne & <-). exists article. split; [done|].
    rewrite Ht. by destruct (decide (t = EmptyString)).
Qed.

Lemma matches_published_iff t published :
  t <> EmptyString ->
  TopicDiscovery.matches_published t published <->
  Text.lower t ∈ TopicDiscovery.published_titles published.
Proof.
  intros Hne. rewrite elem_of_published_titles. unfold TopicDiscovery.matches_published.
  split.
  - intros (article & t' & Hin & Ht & Hl). exists article, t'.
    split; [done | split; [done | split; [|done]]].
    intros ->. simpl in Hl. symmetry in Hl. apply (proj1 (lower_empty t)) in Hl.
    contradiction.
  - intros (article & t' & Hin & Ht & Hne' & Hl). exists article, t'. done.
Qed.

Lemma random_choice_elem {A : Type} (r : nat) (seq : list A) :
  seq <> [] ->
  exists x, TopicDiscovery.random_choice r seq = inr x /\ x ∈ seq.
Proof.
  intros Hne. unfold TopicDiscovery.random_choice.
  assert (Hlt : (r mod length seq < length seq)%nat).
  { apply Nat.mod_upper_bound. destruct seq; [done | simpl; lia]. }
  destruct (lookup_lt_is_Some_2 seq _ Hlt) as [x Hx].
  rewrite Hx. exists x. split; [done|]. by eapply list_elem_of_lookup_2.
Qed.

Lemma TOPIC_BANK_nonempty : TopicDiscovery.TOPIC_BANK <> [].
Proof. done. Qed.

Lemma TOPIC_BANK_titles_nonempty topic :
  topic ∈ TopicDiscovery.TOPIC_BANK -> TopicDiscovery.title topic <> EmptyString.
Proof.
  intros Hin.
  assert (H : Forall (fun t => TopicDiscovery.title t <> EmptyString)
                TopicDiscovery.TOPIC_BANK).
  { unfold TopicDiscovery.TOPIC_BANK. repeat (constructor; [done|]). constructor. }
  rewrite Forall_forall in H. by apply H.
Qed.

(** The selection made by the [try] body: a topic of the bank which is
    published only when every topic of the bank is, with the score that
    says which. *)
Lemma select_unique_topic_body_spec analysis published r :
  exists result topic,
    TopicDiscovery.select_unique_topic_body analysis published r = inr result /\
    topic ∈ TopicDiscovery.TOPIC_BANK /\
    TopicDiscovery.candidate_title result = TopicDiscovery.title topic /\
    (Text.lower (TopicDiscovery.title topic) ∈ TopicDiscovery.published_titles published ->
     forall t, t ∈ TopicDiscovery.TOPIC_BANK ->
       Text.lower (TopicDiscovery.title t) ∈ TopicDiscovery.published_titles published) /\
    TopicDiscovery.uniqueness_score result =
      if decide (Text.lower (TopicDiscovery.title topic)
                   ∈ TopicDiscovery.published_titles published)
      then (5 # 10)%Q else 1%Q.
Proof.
  unfold TopicDiscovery.select_unique_topic_body.
  pose proof TOPIC_BANK_nonempty as Hbank.
  set (bank := TopicDiscovery.TOPIC_BANK) in *. clearbody bank.
  set (titles := TopicDiscovery.published_titles published).
  set (avail0 := filter (fun topic => Text.lower (TopicDiscovery.title topic) ∉ titles) bank).
  set (avail := match avail0 with [] => bank | _ => avail0 end).
  set (prio_cats := list_to_set _ : gset string).
  set (prio := filter (fun topic => TopicDiscovery.category topic ∈ prio_cats) avail).
  assert (Havail_ne : avail <> []).
  { subst avail. destruct avail0; done. }
  assert (Havail : forall x, x ∈ avail -> x ∈ bank /\
            (Text.lower (TopicDiscovery.title x) ∈ titles ->
             forall t, t ∈ bank -> Text.lower (TopicDiscovery.title t) ∈ titles)).
  { intros x Hx. subst avail. destruct avail0 as [|y ys] eqn:Hav.
    - split; [done|]. intros _ t Ht.
      destruct (decide (Text.lower (TopicDiscovery.title t) ∈ titles)) as [|Hn]; [done|].
      assert (t ∈ avail0) as Hin by (subst avail0; apply list_elem_of_filter; done).
      rewrite Hav in Hin. by apply elem_of_nil in Hin.
    - rewrite <- Hav in Hx. subst avail0. apply list_elem_of_filter in Hx as [Hnot Hb].
      split; [done|]. intros Hyes. done. }
  assert (Hsel : exists selected,
            match prio with
            | [] => TopicDiscovery.random_choice r avail
            | _ => TopicDiscovery.random_choice r prio
            end = inr selected /\ selected ∈ avail).
  { destruct prio as [|p ps] eqn:Hprio.
    - by apply random_choice_elem.
    - destruct (random_choice_elem r (p :: ps)) as (x & Hx & Hin); [done|].
      exists x. split; [done|]. rewrite <- Hprio in Hin. subst prio.
      by apply list_elem_of_filter in Hin as [_ ?]. }
  destruct Hsel as (selected & -> & Hin). apply Havail in Hin as [Hb Hall].
  eexists _, selected. split; [reflexivity|]. cbn. repeat split; done.
Qed.

(** C7. For every history of published articles (and every analysis and
    every behaviour of the random generator) the topic selector returns a
    topic of the bank whose title matches a published title, without
    regard to case, only if every title of the bank is published; its
    uniqueness score is 1.0 when the chosen title is not published and 0.5
    when it is a forced repeat. *)
Theorem select_unique_topic_avoids_repeats (analysis : TopicDiscovery.Analysis)
    (published : list Store.WorkflowRecord) (r r' : nat) :
  exists result,
    TopicDiscovery._select_unique_topic analysis published r r' = inr result /\
    (exists topic, topic ∈ TopicDiscovery.TOPIC_BANK /\
                   TopicDiscovery.candidate_title result = TopicDiscovery.title topic) /\
    (TopicDiscovery.matches_published (TopicDiscovery.candidate_title result) published ->
     forall topic, topic ∈ TopicDiscovery.TOPIC_BANK ->
       TopicDiscovery.matches_published (TopicDiscovery.title topic) published) /\
    (~ TopicDiscovery.matches_published (TopicDiscovery.candidate_title result) published ->
     TopicDiscovery.uniqueness_score result = 1%Q) /\
    (TopicDiscovery.matches_published (TopicDiscovery.candidate_title result) published ->
     TopicDiscovery.uniqueness_score result = (5 # 10)%Q).
Proof.
  destruct (select_unique_topic_body_spec analysis published r)
    as (result & topic & Hbody & Hbank & Htitle & Hall & Hscore).
  exists result. unfold TopicDiscovery._select_unique_topic. rewrite Hbody.
  split; [done|]. split; [eauto|].
  rewrite Htitle.
  pose proof (matches_published_iff _ published
                (TOPIC_BANK_titles_nonempty topic Hbank)) as Hiff.
  split; [|split].
  - intros Hm t Ht. apply matches_published_iff.
    + by apply TOPIC_BANK_titles_nonempty.
    + apply Hall; [by apply Hiff | done].
  - intros Hn. rewrite Hscore. destruct (decide _) as [Hyes|]; [|done].
    destruct Hn. by apply Hiff.
  - intros Hm. rewrite Hscore. destruct (decide _) as [|Hno]; [done|].
    destruct Hno. by apply Hiff.
Qed.

(** A history holding one title of the bank, in upper case: the selector
    moves on to an unpublished title with score 1.0.  A history holding
    every title of the bank: the selector repeats one, with score 0.5. *)
Lemma select_unique_topic_avoids_repeats_witness :
  let article t :=
    Store.mkRecord (Some "published") None None None None None (Some t) None None
      None None in
  let one := [article "CYCLING THROUGH SRI LANKA'S CULTURAL TRIANGLE"] in
  let all := map (fun t => article (TopicDiscovery.title t)) TopicDiscovery.TOPIC_BANK in
  let analysis := TopicDiscovery.mkAnalysis [] [] in
  (exists result,
     TopicDiscovery._select_unique_topic analysis one 0 0 = inr result /\
     TopicDiscovery.candidate_title result
       = "Hill Country Cycling Adventure Through Ceylon's Tea Estates" /\
     TopicDiscovery.uniqueness_score result = 1%Q) /\
  (exists result,
     TopicDiscovery._select_unique_topic analysis all 0 0 = inr result /\
     TopicDiscovery.candidate_title result
       = "Cycling Through Sri Lanka's Cultural Triangle" /\
     TopicDiscovery.uniqueness_score result = (5 # 10)%Q).
Proof.
  intros article one all analysis. split.
  - destruct (select_unique_topic_avoids_repeats analysis one 0 0)
      as (result & Hsel & _ & _ & Hfresh & _).
    exists result. split; [exact Hsel|].
    assert (Hrun : TopicDiscovery._select_unique_topic analysis one 0 0
                   = inr (TopicDiscovery.mkCandidate
                            "Hill Country Cycling Adventure Through Ceylon's Tea Estates"
                            ["sri lanka hill country cycling"; "nuwara eliya bike tour";
                             "tea plantation cycling route"; "ella to kandy cycling"]
                            "Hill Country" 1
                            "Random selection from available topics"))
      by (vm_compute; reflexivity).
    rewrite Hrun in Hsel. injection Hsel as Hres. split.
    + rewrite <- Hres. reflexivity.
    + apply Hfresh. rewrite <- Hres. cbn [TopicDiscovery.candidate_title].
      intros (a & t & Hin & Ht & Hl).
      apply list_elem_of_singleton in Hin. subst a. simpl in Ht.
      injection Ht as <-. vm_compute in Hl. discriminate Hl.
  - destruct (select_unique_topic_avoids_repeats analysis all 0 0)
      as (result & Hsel & _ & _ & _ & Hrepeat).
    exists result. split; [exact Hsel|].
    assert (Hrun : exists reason,
              TopicDiscovery._select_unique_topic analysis all 0 0
              = inr (TopicDiscovery.mkCandidate
                       "Cycling Through Sri Lanka's Cultural Triangle"
                       ["sri lanka cultural triangle cycling";
                        "anuradhapura polonnaruwa bike tour";
                        "ancient cities cycling route"; "sigiriya cycling experience"]
                       "Cultural Routes" (5 # 10) reason))
      by (eexists; vm_compute; reflexivity).
    destruct Hrun as [reason Hrun].
    rewrite Hrun in Hsel. injection Hsel as Hres. split.
    + rewrite <- Hres. reflexivity.
    + apply Hrepeat. rewrite <- Hres. cbn [TopicDiscovery.candidate_title].
      exists (article "Cycling Through Sri Lanka's Cultural Triangle"),
             "Cycling Through Sri Lanka's Cultural Triangle".
      split; [|split; reflexivity].
      subst all. unfold TopicDiscovery.TOPIC_BANK. cbn [map TopicDiscovery.title].
      apply list_elem_of_here.
Defined.

(** ** ISO timestamps order as the instants they denote *)















(** ** The stale-workflow sweep *)

Lemma elem_of_scan keep (table : gmap string Store.WorkflowRecord) id item :
  (id, item) ∈ Store.scan keep table <-> table !! id = Some item /\ keep item = true.
Proof.
  unfold Store.scan. rewrite list_elem_of_filter, elem_of_map_to_list. simpl. tauto.
Qed.

Lemma delete_all_lookup l : forall (table : gmap string Store.WorkflowRecord) n id,
  (TopicDiscovery.delete_all l table n).1 !! id =
    if decide (id ∈ l.*1) then None else table !! id.
Proof.
  induction l as [|[k v] l IH]; intros table n id; cbn [TopicDiscovery.delete_all].
  - rewrite fmap_nil, decide_False; [done | apply not_elem_of_nil].
  - rewrite IH, fmap_cons. cbn [fst]. destruct (decide (id ∈ l.*1)) as [Hin|Hnin].
    + rewrite decide_True; [done | by apply list_elem_of_further].
    + destruct (decide (id = k)) as [->|Hne].
      * rewrite lookup_delete_eq. rewrite decide_True; [done | apply list_elem_of_here].
      * rewrite lookup_delete_ne by done.
        rewrite decide_False; [done|]. intros [?|?]%elem_of_cons; done.
Qed.

Lemma delete_all_count l : forall (table : gmap string Store.WorkflowRecord) n,
  (TopicDiscovery.delete_all l table n).2 = (n + length l)%nat.
Proof.
  induction l as [|kv l IH]; intros table n; simpl; [lia|]. rewrite IH. lia.
Qed.

(** After the sweep an item is gone when the filter selects it and is
    untouched otherwise; no item appears. *)
Lemma cleanup_lookup now cutoff (table : gmap string Store.WorkflowRecord) id :
  Clock.minus_24h now = inr cutoff ->
  (TopicDiscovery._cleanup_stale_workflows now table).2 !! id =
    match table !! id with
    | Some item =>
        if TopicDiscovery.stale (Clock.isoformat cutoff) item then None else Some item
    | None => None
    end.
Proof.
  intros Hcut. unfold TopicDiscovery._cleanup_stale_workflows. rewrite Hcut.
  set (ts := Clock.isoformat cutoff).
  pose proof (delete_all_lookup (Store.scan (TopicDiscovery.stale ts) table) table 0 id)
    as Hl.
  destruct (TopicDiscovery.delete_all _ table 0) as [table' n]. simpl in Hl |- *.
  rewrite Hl. clear Hl.
  case_decide as Hin.
  - apply list_elem_of_fmap in Hin as ([k item] & -> & Hin).
    apply elem_of_scan in Hin as [Hitem Hstale]. simpl. by rewrite Hitem, Hstale.
  - destruct (table !! id) as [item|] eqn:Hitem; [|done].
    destruct (TopicDiscovery.stale ts item) eqn:Hstale; [|done].
    destruct Hin. apply list_elem_of_fmap. exists (id, item). split; [done|].
    by apply elem_of_scan.
Qed.



(** ** The workflow state machine *)


Lemma email_attempts_update workflow_id status w :
  Manager.email_attempts (Manager._update_workflow_status workflow_id status w).2
  = Manager.email_attempts w.
Proof. reflexivity. Qed.

Lemma persisted_status_store_article workflow_id topic article w :
  Manager.persisted_status workflow_id
    (Manager._store_article_data workflow_id topic article w).2
  = Manager.persisted_status workflow_id w.
Proof.
  unfold Manager.persisted_status, Manager._store_article_data, Store.update_item.
  cbn. rewrite lookup_insert_eq. by destruct (Manager.table w !! workflow_id).
Qed.





(** C9. When the stages before the gate succeed and the verdict of the
    gate is REJECTED, the run returns (it does not raise) a result with
    status "rejected" that carries the verdict; the table holds
    "rejected", which is not "failed"; and the email routine is not
    entered. *)
Theorem rejected_short_circuits (agents : Manager.Agents) (workflow_id : string)
    (w : Manager.World) (topic : TopicDiscovery.TopicCandidate)
    (report : ResearchReport) (written : Manager.WriterOutput)
    (verdict : ValidationResult) :
  Manager.topic_agent agents = Manager.StageSuccess topic ->
  Manager.research_agent agents topic = Manager.StageSuccess report ->
  Manager.writer_agent agents report = Manager.StageSuccess written ->
  Manager.checker_agent agents (Manager.article written) report
    = Manager.StageSuccess verdict ->
  status verdict = "REJECTED" ->
  let run := Manager._execute_workflow agents workflow_id w in
  (exists result,
     run.1 = inr result /\
     Manager.result_status result = Manager.value Manager.REJECTED /\
     Manager.validation result = Some verdict) /\
  Manager.persisted_status workflow_id run.2 = Some (Manager.value Manager.REJECTED) /\
  Manager.persisted_status workflow_id run.2 <> Some (Manager.value Manager.FAILED) /\
  Manager.email_attempts run.2 = Manager.email_attempts w.
Proof.
  intros Htopic Hresearch Hwriter Hchecker Hrejected. cbv zeta.
  unfold Manager._execute_workflow, Manager.execute_workflow_body, Manager.bind,
    Manager.require_success.
  cbn [Manager._update_workflow_status]. rewrite Htopic. cbn.
  rewrite Hresearch. cbn. rewrite Hwriter. cbn. rewrite Hchecker.
  cbn -[String.eqb]. rewrite Hrejected. cbn.
  split; [eexists; split; [reflexivity | done]|].
  assert (Hper : forall m : gmap string Store.WorkflowRecord,
            Manager.persisted_status workflow_id
              (Manager.mkWorld
                 (Store.update_item workflow_id (Store.set_status "rejected") m)
                 (Manager.email_attempts w)) = Some "rejected").
  { intros m. unfold Manager.persisted_status, Store.update_item. cbn.
    by rewrite lookup_insert_eq. }
  rewrite Hper. done.
Qed.

(** An article with no key facts to check is rejected by the gate (see
    C10); the orchestrator records "rejected", hands back the verdict and
    sends nothing. *)
Lemma rejected_short_circuits_witness :
  let ok := mkCheck true (ErrorDetails "") in
  let article :=
    mkArticle "Cycling the Hill Country"
      [mkBlock "block" [mkSpan "Tea estates line the climb to Ella."]] 3000 in
  let report := mkReport [] ["Tea estates"] in
  let verdict := execute article report ok ok ok in
  let topic :=
    TopicDiscovery.mkCandidate "Cycling the Hill Country" [] "Hill Country" 1
      "Random selection from available topics" in
  let written := Manager.mkWriterOutput article [] 3000 0 in
  let agents :=
    Manager.mkAgents (Manager.StageSuccess topic)
      (fun _ => Manager.StageSuccess report)
      (fun _ => Manager.StageSuccess written)
      (fun _ _ => Manager.StageSuccess verdict)
      (fun _ => "0123456789abcdef0123456789abcdef") (fun _ => true) in
  let run := Manager._execute_workflow agents "workflow-7" (Manager.mkWorld ∅ []) in
  Manager.persisted_status "workflow-7" run.2 = Some "rejected" /\
  Manager.email_attempts run.2 = [].
Proof.
  intros ok article report verdict topic written agents run.
  destruct (rejected_short_circuits agents "workflow-7" (Manager.mkWorld ∅ [])
              topic report written verdict eq_refl eq_refl eq_refl eq_refl
              ltac:(vm_compute; reflexivity))
    as (_ & Hper & _ & Hmail).
  split; [exact Hper | exact Hmail].
Defined.

(** ** Retrying in [safe_invoke_claude] *)

(** For an operation that keeps raising, [safe_invoke_claude] behaves as
    the retry executor does, whatever the classifier says of the error. *)
Lemma safe_invoke_claude_outcome {St A : Type} (random : nat -> Q)
    (invoke : @Operation St A) (max_retries : Z) (s : St) (eff : Effects) :
  let plain := retry_with_backoff random invoke max_retries 2 30 2 true s eff in
  let safe := safe_invoke_claude random invoke max_retries s eff in
  safe.1 = plain.1 /\ safe.2.1 = plain.2.1 /\ sleeps safe.2.2 = sleeps plain.2.2.
Proof.
  cbv zeta. unfold safe_invoke_claude.
  destruct (retry_with_backoff random invoke max_retries 2 30 2 true s eff)
    as [[a|e|] [s' eff']]; [done| |done].
  by destruct (is_transient_error e).
Qed.

(** C5 fails on the code.  A call that keeps raising a plain ValueError,
    which the classifier calls non-transient, is invoked by
    [safe_invoke_claude] with the default [max_retries = 3] four times,
    with three sleeps in between, before the error is raised: the
    classifier does not gate the retries. *)
Theorem safe_invoke_claude_retries_non_transient :
  let error := mkError "ValueError" "Invalid input" in
  let invoke := scripted (A := string) (fun _ => Fail error) in
  let run := safe_invoke_claude (fun _ => 1 # 2) (counted invoke) 3
               (0%nat, 0%nat) no_effects in
  is_transient_error error = false /\
  run.1 = Raised error /\
  run.2.1.2 = 4%nat /\
  length (sleeps run.2.2) = 3%nat.
Proof. cbv zeta. repeat split; by vm_compute. Qed.

(* ===================================================================== *)
(** * Part III: further properties of the modelled code                   *)
(* ===================================================================== *)

(** ** The retry executor: schedule of sleeps *)

Section RetrySchedule.
Context {St A : Type}.
Variable random : nat -> Q.
Variable op : @Operation St A.
Variables (max_retries : Z) (base_delay max_delay exponential_base : Q).
Variable jitter : bool.





End RetrySchedule.



(** X2. Bounds on a sleep.  The backoff delay never exceeds [max_delay].
    With non-negative [base_delay], [max_delay] and [exponential_base] it
    is not negative, and then the delay slept lies within a quarter of it:
    between 0.75 and 1.25 times the backoff delay when [jitter] is set and
    [random] answers in [0, 1], and equal to it otherwise.  So
    [time.sleep] is never given a negative number. *)
Theorem sleep_delay_bounds (random : nat -> Q)
    (base_delay max_delay exponential_base : Q) (jitter : bool)
    (attempt : Z) (drawn : nat) :
  (0 <= base_delay)%Q -> (0 <= max_delay)%Q -> (0 <= exponential_base)%Q ->
  (0 <= random drawn)%Q -> (random drawn <= 1)%Q ->
  let delay := backoff_delay base_delay max_delay exponential_base attempt in
  let slept := (sleep_delay random base_delay max_delay exponential_base jitter
                  attempt drawn).1 in
  (0 <= delay)%Q /\ (delay <= max_delay)%Q /\
  (delay * (75 # 100) <= slept)%Q /\ (slept <= delay * (125 # 100))%Q /\
  (0 <= slept)%Q /\ (jitter = false -> slept = delay).
Proof.
  intros Hb Hm He Hr0 Hr1 delay slept.
  assert (Hd0 : (0 <= delay)%Q).
  { subst delay. unfold backoff_delay. apply Q.min_glb; [|done].
    apply Qmult_le_0_compat; [done | by apply Qpower_0_le]. }
  assert (Hdm : (delay <= max_delay)%Q) by apply Q.le_min_r.
  subst slept. unfold sleep_delay. fold delay.
  destruct jitter; cbn [fst]; unfold uniform.
  - set (u := random drawn) in *. repeat split; try done; try nra.
  - repeat split; try done; try nra.
Qed.

Lemma sleep_delay_bounds_witness :
  let slept := (sleep_delay (fun _ => 1 # 3) 1 60 2 true 3 0).1 in
  (0 <= slept)%Q /\ (slept <= 8 * (125 # 100))%Q.
Proof.
  intros slept.
  destruct (sleep_delay_bounds (fun _ => 1 # 3) 1 60 2 true 3 0
              ltac:(by vm_compute) ltac:(by vm_compute) ltac:(by vm_compute)
              ltac:(by vm_compute) ltac:(by vm_compute))
    as (_ & _ & _ & Hup & H0 & _).
  split; [exact H0 | exact Hup].
Defined.

(** X3. A negative [max_retries].  The loop body never runs: the
    operation is not invoked, nothing is slept or logged, and the
    executor returns [None] without raising. *)
Theorem retry_with_backoff_negative_max_retries {St A : Type} (random : nat -> Q)
    (op : @Operation St A) (N : Z) (base_delay max_delay exponential_base : Q)
    (jitter : bool) (s : St) (calls : nat) (eff : Effects) :
  (N < 0)%Z ->
  retry_with_backoff random (counted op) N base_delay max_delay exponential_base
    jitter (s, calls) eff
  = (ReturnedNone, ((s, calls), eff)).
Proof.
  intros HN. unfold retry_with_backoff.
  replace (Z.to_nat (N + 1)) with 0%nat by lia. reflexivity.
Qed.

Lemma retry_with_backoff_negative_max_retries_witness :
  retry_with_backoff (fun _ => 0%Q) (counted (scripted (fun _ => Ok "never called")))
    (-1) 1 60 2 true (0%nat, 0%nat) no_effects
  = (ReturnedNone, ((0%nat, 0%nat), no_effects)).
Proof.
  apply (retry_with_backoff_negative_max_retries (fun _ => 0%Q)
           (scripted (fun _ => Ok "never called")) (-1) 1 60 2 true 0%nat 0%nat
           no_effects).
  lia.
Defined.


(** ** The classifier and wrapped messages *)

Lemma lower_app a b : Text.lower (a +:+ b) = Text.lower a +:+ Text.lower b.
Proof. induction a as [|c a IH]; simpl; [done | by rewrite IH]. Qed.

Lemma prefix_app p s t : String.prefix p s = true -> String.prefix p (s +:+ t) = true.
Proof.
  revert s. induction p as [|a p IH]; intros s.
  - by destruct (s +:+ t).
  - destruct s as [|b s]; simpl; [done|].
    destruct (Ascii.ascii_dec a b); [apply IH | done].
Qed.

Lemma substring_in_app_r p s t :
  Text.substring_in p s = true -> Text.substring_in p (s +:+ t) = true.
Proof.
  induction s as [|c s IH].
  - simpl. destruct p; [|done]. intros _. by destruct t.
  - change (String c s +:+ t) with (String c (s +:+ t)).
    cbn [Text.substring_in]. intros [H|H]%orb_true_iff; apply orb_true_iff.
    + left. apply (prefix_app p (String c s) t H).
    + right. auto.
Qed.

Lemma substring_in_app_l p s t :
  Text.substring_in p s = true -> Text.substring_in p (t +:+ s) = true.
Proof.
  intros H. induction t as [|c t IH]; [done|].
  change (String c t +:+ s) with (String c (t +:+ s)).
  cbn [Text.substring_in]. apply orb_true_iff. by right.
Qed.

Lemma string_app_empty_r s : s +:+ EmptyString = s.
Proof.
  induction s as [|c s IH]; [done|].
  change (String c (s +:+ EmptyString) = String c s). by rewrite IH.
Qed.

(** X5. Classification by message survives wrapping.  When one of the
    transient patterns occurs in an error message (in any case), every
    exception whose message embeds that message is classified transient,
    whatever its type: in particular the exception the manager raises for
    a stage result that is not a success and carries that message. *)
Theorem is_transient_error_survives_wrapping (p msg pre post ty failed : string)
    (w : Manager.World) :
  In p transient_patterns ->
  Text.substring_in p (Text.lower msg) = true ->
  is_transient_error (mkError ty (pre +:+ msg +:+ post)) = true /\
  exists e,
    (Manager.require_success (A := unit) failed (Manager.StageNonSuccess (Some msg)) w).1
      = inl e /\
    is_transient_error e = true.
Proof.
  intros Hp Hin.
  assert (Hgen : forall ty' a b,
            is_transient_error (mkError ty' (a +:+ msg +:+ b)) = true).
  { intros ty' a b. apply (is_transient_error_by_pattern _ _ p Hp).
    rewrite !lower_app. by apply substring_in_app_l, substring_in_app_r. }
  split; [apply Hgen|].
  eexists. split; [reflexivity|]. cbn [default].
  specialize (Hgen "Exception" failed EmptyString).
  by rewrite string_app_empty_r in Hgen.
Qed.

Lemma is_transient_error_survives_wrapping_witness :
  is_transient_error
    (mkError "Exception" "Research failed: Read Timeout on endpoint URL") = true.
Proof.
  apply (is_transient_error_survives_wrapping "timeout" "Read Timeout"
           "Research failed: " " on endpoint URL" "Exception" ""
           (Manager.mkWorld ∅ [])).
  - simpl. tauto.
  - reflexivity.
Defined.

(** ** Input validation *)

Lemma validate_input_missing {V : Type} (input_data : gmap string V) required_fields :
  filter (fun field => input_data !! field = None) required_fields = [] <->
  forall field, field ∈ required_fields -> is_Some (input_data !! field).
Proof.
  induction required_fields as [|f fs IH].
  - split; [|done]. intros _ field Hin. by apply elem_of_nil in Hin.
  - rewrite filter_cons. destruct (decide (input_data !! f = None)) as [Hn|Hs].
    + split; [done|]. intros H. specialize (H f (list_elem_of_here _ _)).
      rewrite Hn in H. by destruct H.
    + rewrite IH. split.
      * intros H field [->|Hin]%elem_of_cons; [|by apply H].
        by apply not_eq_None_Some.
      * intros H field Hin. apply H. by apply list_elem_of_further.
Qed.

(** X6. [validate_input] answers [True] exactly when every required
    field is a key of the input, whatever value it holds; otherwise it
    raises a [ValueError] (it never answers [False]).  Adding keys to an
    input that validates leaves it valid. *)
Theorem validate_input_spec {V : Type} (input_data : gmap string V)
    (required_fields : list string) :
  (validate_input input_data required_fields = inr true <->
   forall field, field ∈ required_fields -> is_Some (input_data !! field)) /\
  (forall e, validate_input input_data required_fields = inl e ->
     error_type e = "ValueError" /\
     exists field, field ∈ required_fields /\ input_data !! field = None) /\
  validate_input input_data required_fields <> inr false /\
  (forall more : gmap string V,
     input_data ⊆ more ->
     validate_input input_data required_fields = inr true ->
     validate_input more required_fields = inr true).
Proof.
  assert (Hiff : forall d : gmap string V,
            validate_input d required_fields = inr true <->
            forall field, field ∈ required_fields -> is_Some (d !! field)).
  { intros d. rewrite <- validate_input_missing. unfold validate_input.
    destruct (filter _ required_fields); split; done. }
  split; [apply Hiff|]. split; [|split].
  - intros e. unfold validate_input.
    destruct (filter _ required_fields) as [|f fs] eqn:Hf; [done|].
    intros [= <-]. split; [done|]. exists f.
    assert (Hin : f ∈ filter (fun field => input_data !! field = None) required_fields)
      by (rewrite Hf; apply list_elem_of_here).
    apply list_elem_of_filter in Hin. tauto.
  - unfold validate_input. by destruct (filter _ required_fields).
  - intros more Hsub Hok. apply Hiff. intros field Hin.
    destruct (proj1 (Hiff input_data) Hok field Hin) as [v Hv].
    exists v. by eapply lookup_weaken.
Qed.

Lemma validate_input_spec_witness :
  validate_input (<["article" := 1%nat]> (<["research_report" := 2%nat]> ∅))
    ["article"; "research_report"] = inr true.
Proof.
  destruct (validate_input_spec
              (<["article" := 1%nat]> (<["research_report" := 2%nat]> ∅))
              ["article"; "research_report"]) as [[_ Hok] _].
  apply Hok. intros field Hin. apply elem_of_cons in Hin as [->|Hin].
  - by eexists.
  - apply list_elem_of_singleton in Hin as ->. by eexists.
Defined.

(** ** Rates and thresholds *)

(** A rate is the fraction it names: comparing it with [n / d] is
    comparing cross products. *)
Lemma rate_ge (n : Z) (d : positive) (found total : nat) :
  (n # d <= rate found total)%Q <->
  (n * Z.of_nat (Nat.max total 1) <= Z.pos d * Z.of_nat found)%Z.
Proof.
  unfold rate, Qdiv.
  destruct (Z.of_nat (Nat.max total 1)) as [|p|p] eqn:Hp; [lia| |lia].
  unfold Qle. simpl. rewrite Z.mul_1_r. lia.
Qed.

Lemma rate_le (n : Z) (d : positive) (found total : nat) :
  (rate found total <= n # d)%Q <->
  (Z.pos d * Z.of_nat found <= n * Z.of_nat (Nat.max total 1))%Z.
Proof.
  unfold rate, Qdiv.
  destruct (Z.of_nat (Nat.max total 1)) as [|p|p] eqn:Hp; [lia| |lia].
  unfold Qle. simpl. rewrite Z.mul_1_r. lia.
Qed.

Lemma rate_bounds found total :
  (found <= total)%nat -> (0 <= rate found total)%Q /\ (rate found total <= 1)%Q.
Proof.
  intros H. split.
  - change 0%Q with (0 # 1). apply rate_ge. lia.
  - change 1%Q with (1 # 1). apply rate_le. lia.
Qed.

Lemma rate_full n : (0 < n)%nat -> (rate n n == 1)%Q.
Proof.
  intros H. apply Qle_antisym.
  - change 1%Q with (1 # 1). apply rate_le. lia.
  - change 1%Q with (1 # 1). apply rate_ge. lia.
Qed.

Lemma rate_zero total : rate 0 total == 0.
Proof.
  apply Qle_antisym.
  - change 0%Q with (0 # 1). apply rate_le. lia.
  - change 0%Q with (0 # 1). apply rate_ge. lia.
Qed.

(** ** Title similarity *)

(** X7. The Jaccard similarity of two texts is symmetric and lies between
    0 and 1; it is 1 for a text with at least one word against itself, and
    0 when the texts share no word, in particular when either has none
    (two empty texts are not similar). *)
Theorem jaccard_similarity_properties (text1 text2 : string) :
  let words t : gset string := list_to_set (Text.split (Text.lower t)) in
  _calculate_jaccard_similarity text1 text2
    = _calculate_jaccard_similarity text2 text1 /\
  (0 <= _calculate_jaccard_similarity text1 text2)%Q /\
  (_calculate_jaccard_similarity text1 text2 <= 1)%Q /\
  (words text1 <> ∅ -> _calculate_jaccard_similarity text1 text1 == 1) /\
  (words text1 ∩ words text2 = ∅ -> _calculate_jaccard_similarity text1 text2 == 0).
Proof.
  intros words. unfold _calculate_jaccard_similarity. fold (words text1) (words text2).
  split; [|split; [|split; [|split]]].
  - by rewrite (intersection_comm_L (words text1)), (union_comm_L (words text1)).
  - apply rate_bounds, subseteq_size.
    etrans; [apply intersection_subseteq_l | apply union_subseteq_l].
  - apply rate_bounds, subseteq_size.
    etrans; [apply intersection_subseteq_l | apply union_subseteq_l].
  - intros Hne. rewrite intersection_idemp_L, union_idemp_L. apply rate_full.
    destruct (size (words text1)) eqn:Hs; [|lia].
    by apply size_empty_inv, leibniz_equiv in Hs.
  - intros ->. rewrite size_empty. apply rate_zero.
Qed.

Lemma jaccard_similarity_properties_witness :
  _calculate_jaccard_similarity "Hill Country Cycling" "Hill Country Cycling" == 1 /\
  _calculate_jaccard_similarity "Hill Country" "Coastal Routes" == 0 /\
  _calculate_jaccard_similarity "" "" == 0.
Proof.
  split; [|split].
  - apply (jaccard_similarity_properties "Hill Country Cycling" "Hill Country Cycling").
    by vm_compute.
  - apply (jaccard_similarity_properties "Hill Country" "Coastal Routes").
    by vm_compute.
  - apply (jaccard_similarity_properties "" ""). by vm_compute.
Defined.

(** ** The uniqueness check *)











(** ** The readability check *)





(** ** Coverage of facts and must-include items *)

Lemma count_present_spec n article_text entries : forall found missing,
  count_present n article_text entries found missing
  = ((found + length (filter (fun e => mentioned n article_text e = true) entries))%nat,
     missing ++ filter (fun e => mentioned n article_text e <> true) entries).
Proof.
  induction entries as [|e es IH]; intros found missing; simpl.
  - by rewrite Nat.add_0_r, app_nil_r.
  - fold (mentioned n article_text e). rewrite !filter_cons.
    destruct (mentioned n article_text e) eqn:He.
    + rewrite IH, decide_True, decide_False by congruence. simpl. f_equal. lia.
    + rewrite IH, decide_False, decide_True by congruence. simpl.
      by rewrite <- app_assoc.
Qed.




Lemma coverage_passed_iff (n : nat) (threshold : Z) (article_text : string)
    (entries : list string) :
  let found := (count_present n article_text entries 0 []).1 in
  (0 < threshold)%Z ->
  Qle_bool (threshold # 10) (rate found (length entries)) = true <->
  (0 < length entries)%nat /\
  (threshold * Z.of_nat (length entries)
   <= 10 * Z.of_nat (length (filter (fun e => mentioned n article_text e = true) entries)))%Z.
Proof.
  intros found Hpos. subst found. rewrite count_present_spec. cbn [fst Nat.add].
  rewrite Qle_bool_iff, rate_ge.
  pose proof (length_filter (fun e => mentioned n article_text e = true) entries).
  lia.
Qed.

Lemma string_app_assoc a b c : (a +:+ b) +:+ c = a +:+ (b +:+ c).
Proof.
  induction a as [|x a IH]; [done|].
  change (String x ((a +:+ b) +:+ c) = String x (a +:+ (b +:+ c))). by rewrite IH.
Qed.

Lemma string_concat_app_prefix sep (p p' : list string) :
  p <> [] -> exists rest, String.concat sep (p ++ p') = String.concat sep p +:+ rest.
Proof.
  induction p as [|x p IH]; [done|]. intros _. destruct p as [|y p].
  - destruct p' as [|z p'].
    + exists EmptyString. simpl. by rewrite string_app_empty_r.
    + exists (sep +:+ String.concat sep (z :: p')). reflexivity.
  - destruct IH as [rest Hrest]; [done|]. exists rest.
    change (String.concat sep ((x :: y :: p) ++ p'))
      with (x +:+ sep +:+ String.concat sep ((y :: p) ++ p')).
    rewrite Hrest.
    change (String.concat sep (x :: y :: p))
      with (x +:+ sep +:+ String.concat sep (y :: p)).
    by rewrite !string_app_assoc.
Qed.

Lemma substring_in_empty_text p t :
  Text.substring_in p EmptyString = true -> Text.substring_in p t = true.
Proof.
  destruct p; [|done]. intros _. destruct t; [done|]. simpl. done.
Qed.

Lemma extract_text_more_blocks body more kw :
  Text.substring_in kw (Text.lower (_extract_text_from_portable_text body)) = true ->
  Text.substring_in kw (Text.lower (_extract_text_from_portable_text (body ++ more)))
    = true.
Proof.
  unfold _extract_text_from_portable_text. rewrite flat_map_app.
  match goal with
  | |- context [String.concat " " (?a ++ ?b)] =>
      destruct a as [|x xs] eqn:Hp;
      [ simpl; apply substring_in_empty_text
      | destruct (string_concat_app_prefix " " (x :: xs) b) as [rest ->]; [done|];
        rewrite lower_app; apply substring_in_app_r ]
  end.
Qed.

Lemma mentioned_more_blocks n body more entry :
  mentioned n (_extract_text_from_portable_text body) entry = true ->
  mentioned n (_extract_text_from_portable_text (body ++ more)) entry = true.
Proof.
  unfold mentioned, any_keyword_in. rewrite !existsb_exists.
  intros (kw & Hin & Hkw). exists kw. split; [done|]. by apply extract_text_more_blocks.
Qed.

Lemma filter_length_mono {A : Type} (P Q : A -> Prop)
    `{!forall x, Decision (P x)} `{!forall x, Decision (Q x)} (l : list A) :
  (forall x, P x -> Q x) -> (length (filter P l) <= length (filter Q l))%nat.
Proof.
  intros HPQ. induction l as [|x l IH]; [done|]. rewrite !filter_cons.
  destruct (decide (P x)) as [HP|HP].
  - rewrite decide_True by auto. simpl. lia.
  - destruct (decide (Q x)); simpl; lia.
Qed.

(** X12. More text never hurts coverage.  When blocks are appended to
    the body of an article, every key fact and must-include item that was
    found is still found; so a factual or alignment check that passed
    still passes. *)
Theorem coverage_survives_more_text (article : Article) (report : ResearchReport)
    (more : list Block) :
  let longer :=
    mkArticle (title article) (portable_text_body article ++ more)
      (word_count article) in
  (passed (_check_factual_accuracy article report) = true ->
   passed (_check_factual_accuracy longer report) = true) /\
  (passed (_check_research_alignment article report) = true ->
   passed (_check_research_alignment longer report) = true).
Proof.
  intros longer. split.
  - unfold _check_factual_accuracy. cbn [portable_text_body longer].
    destruct (count_present 3 _ (key_facts report) 0 []) as [f1 m1] eqn:H1.
    destruct (count_present 3 (_extract_text_from_portable_text
                (portable_text_body article ++ more)) (key_facts report) 0 [])
      as [f2 m2] eqn:H2.
    cbn [passed].
    replace f1 with (count_present 3 (_extract_text_from_portable_text
                       (portable_text_body article)) (key_facts report) 0 []).1
      by (by rewrite H1).
    replace f2 with (count_present 3 (_extract_text_from_portable_text
                       (portable_text_body article ++ more)) (key_facts report) 0 []).1
      by (by rewrite H2).
    rewrite !(coverage_passed_iff 3 7) by lia. intros [Hpos Hle]. split; [done|].
    pose proof (filter_length_mono _ _ (key_facts report)
                  (mentioned_more_blocks 3 (portable_text_body article) more)).
    lia.
  - unfold _check_research_alignment. cbn [portable_text_body longer].
    destruct (count_present 2 _ (must_include report) 0 []) as [f1 m1] eqn:H1.
    destruct (count_present 2 (_extract_text_from_portable_text
                (portable_text_body article ++ more)) (must_include report) 0 [])
      as [f2 m2] eqn:H2.
    cbn [passed].
    replace f1 with (count_present 2 (_extract_text_from_portable_text
                       (portable_text_body article)) (must_include report) 0 []).1
      by (by rewrite H1).
    replace f2 with (count_present 2 (_extract_text_from_portable_text
                       (portable_text_body article ++ more)) (must_include report) 0 []).1
      by (by rewrite H2).
    rewrite !(coverage_passed_iff 2 8) by lia. intros [Hpos Hle]. split; [done|].
    pose proof (filter_length_mono _ _ (must_include report)
                  (mentioned_more_blocks 2 (portable_text_body article) more)).
    lia.
Qed.

Lemma coverage_survives_more_text_witness :
  let article :=
    mkArticle "Hill Country" [mkBlock "block" [mkSpan "Ella has tea estates."]] 3000 in
  let report := mkReport ["Ella is at 1041 m"] ["Tea estates"] in
  passed (_check_factual_accuracy
            (mkArticle "Hill Country"
               ([mkBlock "block" [mkSpan "Ella has tea estates."]]
                ++ [mkBlock "block" [mkSpan "Trains stop at Nine Arch Bridge."]])
               3000) report) = true.
Proof.
  intros article report.
  apply (coverage_survives_more_text article report
           [mkBlock "block" [mkSpan "Trains stop at Nine Arch Bridge."]]).
  reflexivity.
Defined.

(** ** The decision when a check is missing, and the score of a verdict *)

(** X13. A missing check.  When the dictionary of checks lacks one of
    the five keys, [_make_decision] catches the [KeyError] and answers
    NEEDS_REVISION with the decision text "Error in validation" and the
    quoted name of a missing key as error, whatever the other checks say
    (even a failed critical check does not give REJECTED); so does the
    verdict assembled from such a dictionary. *)
Theorem make_decision_missing_check (checks : gmap string CheckResult)
    (score : Q) (key : string) :
  In key ["factual_accuracy"; "research_alignment"; "uniqueness"; "seo_compliance";
          "quality"] ->
  checks !! key = None ->
  (_make_decision checks score).1 = "NEEDS_REVISION" /\
  decision (_make_decision checks score).2 = "Error in validation" /\
  (exists missing,
     checks !! missing = None /\
     feedback_error (_make_decision checks score).2 = Some ("'" +:+ missing +:+ "'")) /\
  status (validate checks) = "NEEDS_REVISION".
Proof.
  intros Hkey Hnone.
  assert (Hbody : exists missing,
            checks !! missing = None /\
            make_decision_body checks score
              = inl (mkError "KeyError" ("'" +:+ missing +:+ "'"))).
  { unfold make_decision_body, index_check.
    destruct (checks !! "factual_accuracy") as [f|] eqn:Hf; [|by eauto].
    destruct (checks !! "research_alignment") as [r|] eqn:Hr; [|by eauto].
    destruct (checks !! "uniqueness") as [u|] eqn:Hu; [|by eauto].
    destruct (checks !! "seo_compliance") as [s|] eqn:Hs; [|by eauto].
    destruct (checks !! "quality") as [q|] eqn:Hq; [|by eauto].
    simpl in Hkey. destruct Hkey as [<-|[<-|[<-|[<-|[<-|[]]]]]]; congruence. }
  assert (Hany : forall sc,
            (_make_decision checks sc).1 = "NEEDS_REVISION" /\
            decision (_make_decision checks sc).2 = "Error in validation").
  { intros sc. unfold _make_decision, make_decision_body, index_check.
    destruct (checks !! "factual_accuracy") as [f|] eqn:Hf; [|done].
    destruct (checks !! "research_alignment") as [r|] eqn:Hr; [|done].
    destruct (checks !! "uniqueness") as [u|] eqn:Hu; [|done].
    destruct (checks !! "seo_compliance") as [s|] eqn:Hs; [|done].
    destruct (checks !! "quality") as [q|] eqn:Hq; [|done].
    simpl in Hkey. destruct Hkey as [<-|[<-|[<-|[<-|[<-|[]]]]]]; congruence. }
  destruct Hbody as (missing & Hm & Hb).
  split; [apply Hany|]. split; [apply Hany|]. split.
  - exists missing. split; [done|]. unfold _make_decision. by rewrite Hb.
  - rewrite status_validate. apply Hany.
Qed.

Lemma make_decision_missing_check_witness :
  let ko := mkCheck false (ErrorDetails "") in
  let checks : gmap string CheckResult :=
    <["factual_accuracy" := ko]> (<["research_alignment" := ko]> ∅) in
  status (validate checks) = "NEEDS_REVISION".
Proof.
  intros ko checks.
  apply (make_decision_missing_check checks 0 "uniqueness").
  - simpl. tauto.
  - reflexivity.
Defined.

Lemma quality_score_collect f s r u q :
  (_calculate_quality_score (collect_checks f s r u q) ==
     contribution (passed f) (25 # 100) + contribution (passed s) (25 # 100)
     + contribution (passed r) (20 # 100) + contribution (passed u) (15 # 100)
     + contribution (passed q) (15 # 100))%Q.
Proof.
  unfold _calculate_quality_score, weights. cbn [fold_left].
  destruct (check_passed_collect_checks f s r u q) as (-> & -> & -> & -> & ->).
  destruct (passed f), (passed s), (passed r), (passed u), (passed q); reflexivity.
Qed.

Lemma Qle_bool_proper a b c : (b == c)%Q -> Qle_bool a b = Qle_bool a c.
Proof.
  intros H. destruct (Qle_bool a c) eqn:Hc.
  - apply Qle_bool_iff. apply Qle_bool_iff in Hc. by rewrite H.
  - apply not_true_is_false. intros Hb%Qle_bool_iff. rewrite H in Hb.
    apply Qle_bool_iff in Hb. congruence.
Qed.

(** X14. Score and decision of a verdict.  For the verdict assembled
    from five checks: it is APPROVED exactly when the score is 1.0, and
    then the recommendation is the "Excellent quality" one (the "Good
    quality" recommendation is never given); a NEEDS_REVISION verdict
    scores between 0.60 and 0.85 and a REJECTED one at most 0.85.  The
    status is always one of the three. *)
Theorem verdict_score_and_status (f s r u q : CheckResult) :
  let verdict := validate (collect_checks f s r u q) in
  (status verdict = "APPROVED" <-> quality_score verdict == 1) /\
  (status verdict = "APPROVED" ->
   approval_recommendation verdict
     = "APPROVE - Excellent quality, ready for publication") /\
  (status verdict = "NEEDS_REVISION" ->
   (60 # 100 <= quality_score verdict)%Q /\ (quality_score verdict <= 85 # 100)%Q) /\
  (status verdict = "REJECTED" -> (quality_score verdict <= 85 # 100)%Q) /\
  (status verdict = "APPROVED" \/ status verdict = "NEEDS_REVISION" \/
   status verdict = "REJECTED").
Proof.
  cbv zeta. unfold validate.
  set (checks := collect_checks f s r u q).
  set (score := _calculate_quality_score checks).
  pose proof (quality_score_collect f s r u q) as Hscore. fold checks score in Hscore.
  unfold _make_decision.
  destruct (make_decision_body_collect f s r u q score) as (fb & Hbody).
  fold checks in Hbody. rewrite Hbody. cbn [status quality_score approval_recommendation].
  unfold _get_recommendation. rewrite (Qle_bool_proper _ _ _ Hscore).
  clearbody score. clear Hbody.
  destruct (passed f), (passed r), (passed u), (passed s), (passed q);
    cbn in Hscore |- *; rewrite Hscore;
    repeat split; intros;
    first [ match goal with H : @eq string _ _ |- _ => discriminate H end
          | match goal with H : (_ == _)%Q |- _ => by vm_compute in H end
          | by vm_compute
          | tauto ].
Qed.

Lemma verdict_score_and_status_witness :
  let ok := mkCheck true (ErrorDetails "") in
  let ko := mkCheck false (ErrorDetails "") in
  (quality_score (validate (collect_checks ok ko ok ok ok)) <= 85 # 100)%Q /\
  approval_recommendation (validate (collect_checks ok ok ok ok ok))
  = "APPROVE - Excellent quality, ready for publication".
Proof.
  intros ok ko. split.
  - destruct (verdict_score_and_status ok ko ok ok ok) as (_ & _ & H & _).
    apply H. reflexivity.
  - destruct (verdict_score_and_status ok ok ok ok ok) as (_ & H & _).
    apply H. reflexivity.
Defined.

(** ** Word counts of the writer and of the checker *)






(** ** The topic selector: preference for thinly covered categories *)

Lemma select_unique_topic_body_priority analysis published r :
  let priority : gset string :=
    list_to_set (TopicDiscovery.gap_categories analysis
                 ++ TopicDiscovery.underrepresented_categories analysis) in
  let titles := TopicDiscovery.published_titles published in
  exists result topic,
    TopicDiscovery.select_unique_topic_body analysis published r = inr result /\
    topic ∈ TopicDiscovery.TOPIC_BANK /\
    TopicDiscovery.candidate_title result = TopicDiscovery.title topic /\
    TopicDiscovery.candidate_category result = TopicDiscovery.category topic /\
    TopicDiscovery.selection_reason result =
      (if decide (TopicDiscovery.category topic ∈ priority)
       then "Gap category: " +:+ TopicDiscovery.category topic
       else "Random selection from available topics") /\
    ((exists t, t ∈ TopicDiscovery.TOPIC_BANK /\
                (Text.lower (TopicDiscovery.title t) ∉ titles) /\
                TopicDiscovery.category t ∈ priority) ->
     TopicDiscovery.category topic ∈ priority /\
     Text.lower (TopicDiscovery.title topic) ∉ titles) /\
    ((forall t, t ∈ TopicDiscovery.TOPIC_BANK ->
                TopicDiscovery.category t ∉ priority) ->
     TopicDiscovery.category topic ∉ priority).
Proof.
  intros priority titles. unfold TopicDiscovery.select_unique_topic_body.
  fold titles. fold priority.
  pose proof TOPIC_BANK_nonempty as Hbank.
  set (bank := TopicDiscovery.TOPIC_BANK) in *. clearbody bank.
  set (avail0 := filter (fun topic => Text.lower (TopicDiscovery.title topic) ∉ titles) bank).
  set (avail := match avail0 with [] => bank | _ => avail0 end).
  set (prio := filter (fun topic => TopicDiscovery.category topic ∈ priority) avail).
  assert (Havail_ne : avail <> []) by (subst avail; destruct avail0; done).
  assert (Havail_bank : forall x, x ∈ avail -> x ∈ bank).
  { intros x Hx. subst avail. destruct avail0 as [|y ys] eqn:Hav; [done|].
    rewrite <- Hav in Hx. subst avail0. by apply list_elem_of_filter in Hx as [_ ?]. }
  assert (Hfresh : forall t, t ∈ bank -> Text.lower (TopicDiscovery.title t) ∉ titles ->
            t ∈ avail /\
            (forall x, x ∈ avail -> Text.lower (TopicDiscovery.title x) ∉ titles)).
  { intros t Ht Hnot.
    assert (Hin0 : t ∈ avail0) by (subst avail0; by apply list_elem_of_filter).
    subst avail. destruct avail0 as [|y ys] eqn:Hav; [by apply elem_of_nil in Hin0|].
    rewrite <- Hav in *. split; [done|]. intros x Hx. subst avail0.
    by apply list_elem_of_filter in Hx as [? _]. }
  assert (Hsel : exists selected,
            match prio with
            | [] => TopicDiscovery.random_choice r avail
            | _ => TopicDiscovery.random_choice r prio
            end = inr selected /\ selected ∈ avail /\
            (prio <> [] -> TopicDiscovery.category selected ∈ priority)).
  { destruct prio as [|p ps] eqn:Hprio.
    - destruct (random_choice_elem r avail Havail_ne) as (x & Hx & Hin).
      exists x. split; [done|]. split; [done|]. intros Hne. by destruct Hne.
    - destruct (random_choice_elem r (p :: ps)) as (x & Hx & Hin); [done|].
      exists x. rewrite <- Hprio in Hin. subst prio.
      apply list_elem_of_filter in Hin as [? ?]. done. }
  destruct Hsel as (selected & -> & Hin & Hprio).
  eexists _, selected. split; [reflexivity|]. cbn.
  split; [by apply Havail_bank|]. split; [done|]. split; [done|]. split; [done|]. split.
  - intros (t & Ht & Hnot & Hcat). destruct (Hfresh t Ht Hnot) as [Htin Hallfresh].
    split; [|by apply Hallfresh]. apply Hprio. intros Hnil.
    assert (t ∈ prio) as Hp by (subst prio; by apply list_elem_of_filter).
    rewrite Hnil in Hp. by apply elem_of_nil in Hp.
  - intros Hnone. apply Hnone. by apply Havail_bank.
Qed.

(** X16. The selector prefers thinly covered categories.  When some
    topic of the bank is unpublished and lies in a gap or
    underrepresented category of the analysis, the selector returns an
    unpublished topic of such a category and gives "Gap category: ..." as
    its reason; when no topic of the bank lies in such a category the
    reason is "Random selection from available topics". *)
Theorem select_unique_topic_prefers_priority (analysis : TopicDiscovery.Analysis)
    (published : list Store.WorkflowRecord) (r r' : nat) :
  let priority c :=
    In c (TopicDiscovery.gap_categories analysis
          ++ TopicDiscovery.underrepresented_categories analysis) in
  exists result,
    TopicDiscovery._select_unique_topic analysis published r r' = inr result /\
    ((exists t, t ∈ TopicDiscovery.TOPIC_BANK /\
                ~ TopicDiscovery.matches_published (TopicDiscovery.title t) published /\
                priority (TopicDiscovery.category t)) ->
     priority (TopicDiscovery.candidate_category result) /\
     ~ TopicDiscovery.matches_published (TopicDiscovery.candidate_title result)
         published /\
     TopicDiscovery.selection_reason result
       = "Gap category: " +:+ TopicDiscovery.candidate_category result) /\
    ((forall t, t ∈ TopicDiscovery.TOPIC_BANK ->
                ~ priority (TopicDiscovery.category t)) ->
     TopicDiscovery.selection_reason result
       = "Random selection from available topics").
Proof.
  intros priority. subst priority. cbv beta.
  destruct (select_unique_topic_body_priority analysis published r)
    as (result & topic & Hbody & Hbank & Htitle & Hcat & Hreason & Hpref & Hnone).
  exists result. unfold TopicDiscovery._select_unique_topic. rewrite Hbody.
  split; [done|]. rewrite Htitle, Hcat, Hreason.
  assert (Hmem : forall c,
            c ∈ (list_to_set (TopicDiscovery.gap_categories analysis
                   ++ TopicDiscovery.underrepresented_categories analysis) : gset string)
            <-> In c (TopicDiscovery.gap_categories analysis
                      ++ TopicDiscovery.underrepresented_categories analysis)).
  { intros c. by rewrite elem_of_list_to_set, list_elem_of_In. }
  split.
  - intros (t & Ht & Hnot & Hp).
    destruct Hpref as [Hc Hfresh].
    { exists t. split; [done|]. split; [|by apply Hmem].
      intros Hin. apply Hnot. apply matches_published_iff; [|done].
      by apply TOPIC_BANK_titles_nonempty. }
    split; [by apply Hmem|]. split.
    + intros Hm. apply Hfresh. apply matches_published_iff; [|done].
      by apply TOPIC_BANK_titles_nonempty.
    + by rewrite decide_True.
  - intros Hno. rewrite decide_False; [done|]. apply Hnone.
    intros t Ht Hin. apply (Hno t Ht). by apply Hmem.
Qed.

Lemma select_unique_topic_prefers_priority_witness :
  exists result,
    TopicDiscovery._select_unique_topic
      (TopicDiscovery.mkAnalysis ["Wildlife"] []) [] 5 0 = inr result /\
    TopicDiscovery.selection_reason result = "Gap category: Wildlife".
Proof.
  destruct (select_unique_topic_prefers_priority
              (TopicDiscovery.mkAnalysis ["Wildlife"] []) [] 5 0)
    as (result & Hsel & Hpref & _).
  exists result. split; [exact Hsel|].
  destruct Hpref as (Hcat & _ & Hreason).
  - exists (TopicDiscovery.mkTopic
              "Wildlife Cycling Safari: Yala to Udawalawe Adventure"
              ["wildlife cycling sri lanka"; "yala national park bike tour";
               "elephant cycling safari"; "udawalawe cycling route"]
              "Wildlife").
    split; [|split].
    + unfold TopicDiscovery.TOPIC_BANK. do 5 apply list_elem_of_further.
      apply list_elem_of_here.
    + intros (a & t & Hin & _). by apply elem_of_nil in Hin.
    + simpl. tauto.
  - rewrite Hreason. simpl in Hcat. destruct Hcat as [<-|[]]. reflexivity.
Defined.

(** ** The analysis of published articles *)

Lemma counts_get_bump k k' counts :
  TopicDiscovery.counts_get k' (TopicDiscovery.bump k counts)
  = if decide (k' = k) then S (TopicDiscovery.counts_get k counts)
    else TopicDiscovery.counts_get k' counts.
Proof.
  induction counts as [|[k0 n] counts IH]; simpl.
  - destruct (String.eqb_spec k k'), (decide (k' = k)); congruence.
  - destruct (String.eqb_spec k0 k) as [->|Hne]; simpl.
    + destruct (String.eqb_spec k k'), (decide (k' = k)); congruence.
    + destruct (String.eqb_spec k0 k') as [->|Hne'].
      * by rewrite decide_False.
      * apply IH.
Qed.

Lemma bump_keys k counts x :
  x ∈ (TopicDiscovery.bump k counts).*1 <-> x = k \/ x ∈ counts.*1.
Proof.
  induction counts as [|[k0 n] counts IH]; simpl.
  - rewrite list_elem_of_singleton. split; [by left|].
    intros [?|?%elem_of_nil]; done.
  - destruct (String.eqb_spec k0 k) as [->|Hne]; simpl.
    + rewrite !elem_of_cons. tauto.
    + rewrite !elem_of_cons, IH. tauto.
Qed.

Lemma bump_NoDup k counts :
  NoDup counts.*1 -> NoDup (TopicDiscovery.bump k counts).*1.
Proof.
  induction counts as [|[k0 n] counts IH]; simpl; intros Hnd.
  - apply NoDup_singleton.
  - apply NoDup_cons in Hnd as [Hnotin Hnd].
    destruct (String.eqb_spec k0 k) as [->|Hne]; simpl.
    + by apply NoDup_cons.
    + apply NoDup_cons. split; [|by apply IH].
      rewrite bump_keys. intros [->|Hin]; done.
Qed.

Lemma bump_positive k counts :
  Forall (fun kv => (0 < kv.2)%nat) counts ->
  Forall (fun kv => (0 < kv.2)%nat) (TopicDiscovery.bump k counts).
Proof.
  induction counts as [|[k0 n] counts IH]; simpl; intros Hpos.
  - repeat constructor.
  - apply Forall_cons in Hpos as [Hn Hpos].
    destruct (String.eqb k0 k); constructor; simpl; auto; lia.
Qed.

(** In a dictionary without repeated keys an entry is what [get] finds. *)
Lemma counts_entry counts k n :
  NoDup counts.*1 -> Forall (fun kv => (0 < kv.2)%nat) counts ->
  (k, n) ∈ counts <-> TopicDiscovery.counts_get k counts = n /\ (0 < n)%nat.
Proof.
  induction counts as [|[k0 n0] counts IH]; simpl; intros Hnd Hpos.
  - split; [by intros ?%elem_of_nil | lia].
  - apply NoDup_cons in Hnd as [Hnotin Hnd]. apply Forall_cons in Hpos as [Hn0 Hpos].
    simpl in Hn0. rewrite elem_of_cons.
    destruct (String.eqb_spec k0 k) as [->|Hne].
    + split.
      * intros [[= ->]|Hin]; [done|]. destruct Hnotin.
        apply list_elem_of_fmap. by exists (k, n).
      * intros [-> _]. by left.
    + rewrite IH by done. split; [|tauto]. intros [[= -> ->]|H]; done.
Qed.

Lemma fold_bump_spec (articles : list Store.WorkflowRecord) : forall counts,
  let result :=
    fold_left (fun counts article =>
                 TopicDiscovery.bump (default "Unknown" (Store.topic_category article))
                   counts) articles counts in
  NoDup counts.*1 -> Forall (fun kv => (0 < kv.2)%nat) counts ->
  NoDup result.*1 /\ Forall (fun kv => (0 < kv.2)%nat) result /\
  forall k, TopicDiscovery.counts_get k result
            = (TopicDiscovery.counts_get k counts
               + TopicDiscovery.articles_in k articles)%nat.
Proof.
  induction articles as [|a articles IH]; intros counts result Hnd Hpos.
  - subst result. simpl. split; [done|]. split; [done|]. intros k.
    unfold TopicDiscovery.articles_in. simpl. lia.
  - subst result. cbn [fold_left].
    destruct (IH (TopicDiscovery.bump (default "Unknown" (Store.topic_category a)) counts))
      as (Hnd' & Hpos' & Hget); [by apply bump_NoDup | by apply bump_positive |].
    split; [done|]. split; [done|]. intros k. rewrite Hget, counts_get_bump.
    unfold TopicDiscovery.articles_in. rewrite filter_cons.
    destruct (decide (k = default "Unknown" (Store.topic_category a))) as [->|Hne].
    + rewrite decide_True by done. simpl. lia.
    + rewrite decide_False by congruence. lia.
Qed.

(** X17. What the analysis reports.  The category distribution has one
    entry per category that occurs, with the number of articles in it; the
    gap categories are exactly the categories of the topic bank in which
    no article falls; the underrepresented categories are exactly those in
    which one article falls; neither list repeats a category; and the
    total is the number of articles. *)
Theorem analyze_articles_spec (articles : list Store.WorkflowRecord) :
  let report := TopicDiscovery._analyze_articles articles in
  TopicDiscovery.total_articles report = length articles /\
  (forall c n, (c, n) ∈ TopicDiscovery.category_distribution report <->
               TopicDiscovery.articles_in c articles = n /\ (0 < n)%nat) /\
  (forall c, In c (TopicDiscovery.gap_categories (TopicDiscovery.analysis report)) <->
             (exists t, t ∈ TopicDiscovery.TOPIC_BANK /\ TopicDiscovery.category t = c) /\
             TopicDiscovery.articles_in c articles = 0%nat) /\
  (forall c, In c (TopicDiscovery.underrepresented_categories
                     (TopicDiscovery.analysis report)) <->
             TopicDiscovery.articles_in c articles = 1%nat) /\
  NoDup (TopicDiscovery.gap_categories (TopicDiscovery.analysis report)) /\
  NoDup (TopicDiscovery.underrepresented_categories (TopicDiscovery.analysis report)).
Proof.
  cbv zeta. unfold TopicDiscovery._analyze_articles.
  cbn [TopicDiscovery.total_articles TopicDiscovery.category_distribution
       TopicDiscovery.analysis TopicDiscovery.gap_categories
       TopicDiscovery.underrepresented_categories].
  destruct (fold_bump_spec articles []) as (Hnd & Hpos & Hget);
    [apply NoDup_nil_2 | constructor |].
  set (counts := fold_left _ articles []) in *. simpl in Hget.
  assert (Hentry : forall c n, (c, n) ∈ counts <->
            TopicDiscovery.articles_in c articles = n /\ (0 < n)%nat).
  { intros c n. rewrite counts_entry, Hget by done. done. }
  assert (Hkey : forall c, c ∈ counts.*1 <->
            (0 < TopicDiscovery.articles_in c articles)%nat).
  { intros c. rewrite list_elem_of_fmap. split.
    - intros ([k n] & -> & Hin). apply Hentry in Hin as [<- ?]. done.
    - intros Hc. exists (c, TopicDiscovery.articles_in c articles).
      split; [done|]. by apply Hentry. }
  split; [done|]. split; [exact Hentry|]. split; [|split; [|split]].
  - intros c. rewrite <- list_elem_of_In, elem_of_elements, elem_of_difference,
      !elem_of_list_to_set, list_elem_of_fmap.
    change (map fst counts) with (counts.*1). rewrite Hkey. split.
    + intros [(t & -> & Ht) Hz]. split; [by exists t | lia].
    + intros [(t & Ht & <-) Hz]. split; [by exists t | lia].
  - intros c. rewrite <- list_elem_of_In.
    change (map fst ?l) with (l.*1). rewrite list_elem_of_fmap. split.
    + intros ([k n] & -> & [Hle Hin]%list_elem_of_filter). simpl in *.
      apply Hentry in Hin as [<- ?]. lia.
    + intros Hone. exists (c, 1%nat). split; [done|]. apply list_elem_of_filter.
      split; [simpl; lia|]. apply Hentry. split; [done | lia].
  - apply NoDup_elements.
  - change (map fst ?l) with (l.*1).
    assert (Hsub : forall l : list (string * nat),
              NoDup l.*1 -> NoDup (filter (fun kv => (kv.2 <= 1)%nat) l).*1).
    { clear. induction l as [|[k n] l IH]; simpl; [done|].
      intros [Hnotin Hnd]%NoDup_cons. rewrite filter_cons.
      destruct (decide _); [|by apply IH]. simpl. apply NoDup_cons. split; [|by apply IH].
      intros ([k' n'] & -> & [_ Hin]%list_elem_of_filter)%list_elem_of_fmap.
      apply Hnotin. apply list_elem_of_fmap. by exists (k', n'). }
    by apply Hsub.
Qed.

Lemma analyze_articles_spec_witness :
  let article c :=
    Store.mkRecord (Some "published") None None None None None None (Some c) None
      None None in
  In "Wellness"
     (TopicDiscovery.underrepresented_categories
        (TopicDiscovery.analysis
           (TopicDiscovery._analyze_articles
              [article "Planning"; article "Wellness"; article "Planning"]))).
Proof.
  intros article.
  apply (analyze_articles_spec
           [article "Planning"; article "Wellness"; article "Planning"]).
  reflexivity.
Defined.

Lemma analysis_priority_spec (articles : list Store.WorkflowRecord) (c : string) :
  let analysis := TopicDiscovery.analysis (TopicDiscovery._analyze_articles articles) in
  In c (TopicDiscovery.gap_categories analysis
        ++ TopicDiscovery.underrepresented_categories analysis) <->
  ((exists t, t ∈ TopicDiscovery.TOPIC_BANK /\ TopicDiscovery.category t = c) /\
   TopicDiscovery.articles_in c articles = 0%nat) \/
  TopicDiscovery.articles_in c articles = 1%nat.
Proof.
  cbv zeta. unfold TopicDiscovery._analyze_articles.
  cbn [TopicDiscovery.analysis TopicDiscovery.gap_categories
       TopicDiscovery.underrepresented_categories].
  destruct (fold_bump_spec articles []) as (Hnd & Hpos & Hget);
    [apply NoDup_nil_2 | constructor |].
  set (counts := fold_left _ articles []) in *. simpl in Hget.
  assert (Hentry : forall k n, (k, n) ∈ counts <->
            TopicDiscovery.articles_in k articles = n /\ (0 < n)%nat).
  { intros k n. rewrite counts_entry, Hget by done. done. }
  assert (Hkey : forall k, k ∈ counts.*1 <->
            (0 < TopicDiscovery.articles_in k articles)%nat).
  { intros k. rewrite list_elem_of_fmap. split.
    - intros ([k' n] & -> & Hin). apply Hentry in Hin as [<- ?]. done.
    - intros Hc. exists (k, TopicDiscovery.articles_in k articles).
      split; [done|]. by apply Hentry. }
  rewrite in_app_iff.
  apply Morphisms_Prop.or_iff_morphism.
  - rewrite <- list_elem_of_In, elem_of_elements, elem_of_difference,
      !elem_of_list_to_set, list_elem_of_fmap.
    change (map fst counts) with (counts.*1). rewrite Hkey. split.
    + intros [(t & -> & Ht) Hz]. split; [by exists t | lia].
    + intros [(t & Ht & <-) Hz]. split; [by exists t | lia].
  - rewrite <- list_elem_of_In.
    change (map fst ?l) with (l.*1). rewrite list_elem_of_fmap. split.
    + intros ([k n] & -> & [Hle Hin]%list_elem_of_filter). simpl in *.
      apply Hentry in Hin as [<- ?]. lia.
    + intros Hone. exists (c, 1%nat). split; [done|]. apply list_elem_of_filter.
      split; [simpl; lia|]. apply Hentry. split; [done | lia].
Qed.

(** X18. Analysis and selection together.  When the selector is given
    the analysis of the very history it selects against, and some
    unpublished topic of the bank lies in a category with at most one
    published article, the topic it returns is unpublished and lies in a
    category with at most one published article. *)
Theorem selection_follows_analysis (published : list Store.WorkflowRecord)
    (r r' : nat) :
  let analysis := TopicDiscovery.analysis (TopicDiscovery._analyze_articles published) in
  exists result,
    TopicDiscovery._select_unique_topic analysis published r r' = inr result /\
    ((exists t, t ∈ TopicDiscovery.TOPIC_BANK /\
                ~ TopicDiscovery.matches_published (TopicDiscovery.title t) published /\
                (TopicDiscovery.articles_in (TopicDiscovery.category t) published <= 1)%nat) ->
     (TopicDiscovery.articles_in (TopicDiscovery.candidate_category result) published
      <= 1)%nat /\
     ~ TopicDiscovery.matches_published (TopicDiscovery.candidate_title result)
         published).
Proof.
  intros analysis.
  destruct (select_unique_topic_body_priority analysis published r)
    as (result & topic & Hbody & Hbank & Htitle & Hcat & _ & Hpref & _).
  exists result. unfold TopicDiscovery._select_unique_topic. rewrite Hbody.
  split; [done|]. rewrite Htitle, Hcat.
  intros (t & Ht & Hnot & Hle).
  destruct Hpref as [Hc Hfresh].
  { exists t. split; [done|]. split.
    - intros Hin. apply Hnot. apply matches_published_iff; [|done].
      by apply TOPIC_BANK_titles_nonempty.
    - apply elem_of_list_to_set, list_elem_of_In. subst analysis.
      apply analysis_priority_spec.
      destruct (TopicDiscovery.articles_in (TopicDiscovery.category t) published)
        as [|[|n]] eqn:Hn; [left | by right | lia].
      split; [by exists t | done]. }
  split.
  - apply elem_of_list_to_set, list_elem_of_In in Hc. subst analysis.
    apply analysis_priority_spec in Hc as [[_ ->]| ->]; lia.
  - intros Hm. apply Hfresh. apply matches_published_iff; [|done].
    by apply TOPIC_BANK_titles_nonempty.
Qed.

Lemma selection_follows_analysis_witness :
  let article t c :=
    Store.mkRecord (Some "published") None None None None None (Some t) (Some c) None
      None None in
  let published :=
    [article "Cycling Sri Lanka: Complete Planning Guide for First-Timers" "Planning";
     article "When to Cycle Sri Lanka: Seasonal Guide and Weather Patterns" "Planning"] in
  exists result,
    TopicDiscovery._select_unique_topic
      (TopicDiscovery.analysis (TopicDiscovery._analyze_articles published))
      published 7 0 = inr result /\
    (TopicDiscovery.articles_in (TopicDiscovery.candidate_category result) published
     <= 1)%nat.
Proof.
  intros article published.
  destruct (selection_follows_analysis published 7 0) as (result & Hsel & Hpref).
  exists result. split; [exact Hsel|]. apply Hpref.
  exists (TopicDiscovery.mkTopic
            "Cycling Through Sri Lanka's Cultural Triangle"
            ["sri lanka cultural triangle cycling"; "anuradhapura polonnaruwa bike tour";
             "ancient cities cycling route"; "sigiriya cycling experience"]
            "Cultural Routes").
  split; [apply list_elem_of_here|]. split.
  - intros (a & t & Hin & Ht & Hl).
    apply elem_of_cons in Hin as [->|Hin];
      [simpl in Ht; injection Ht as <-; vm_compute in Hl; discriminate Hl|].
    apply list_elem_of_singleton in Hin as ->.
    simpl in Ht. injection Ht as <-. vm_compute in Hl. discriminate Hl.
  - vm_compute. lia.
Defined.

(** ** The record a workflow leaves *)

Lemma lookup_update_item_eq id set (table : gmap string Store.WorkflowRecord) :
  Store.update_item id set table !! id
  = Some (set (default Store.empty_record (table !! id))).
Proof. unfold Store.update_item. by rewrite lookup_insert_eq. Qed.

Lemma lookup_update_item_ne id id' set (table : gmap string Store.WorkflowRecord) :
  id <> id' -> Store.update_item id set table !! id' = table !! id'.
Proof. intros Hne. unfold Store.update_item. by rewrite lookup_insert_ne. Qed.

Ltac record_lookup :=
  repeat (rewrite lookup_update_item_eq; cbn [default from_option id]);
  rewrite ?lookup_insert_eq; cbn [default from_option id].

(** X19. The record of an accepted article.  When the four stages
    succeed and the verdict is APPROVED or NEEDS_REVISION,
    [start_workflow] returns its dictionary with status "success" around
    a result with status "email_sent" and the preview of the article, and
    this whether or not SES took the email.  The record of the workflow
    then holds the status "email_sent", the creation data written at the
    start (retry count 0 of at most 2, schema "2.0"), the topic and
    article titles, the approval token and the approval status
    "awaiting_approval"; the email routine was entered once. *)
Theorem start_workflow_approval_record (agents : Manager.Agents)
    (workflow_id created_at trigger_type : string) (w : Manager.World)
    (topic : TopicDiscovery.TopicCandidate) (report : ContentChecker.ResearchReport)
    (written : Manager.WriterOutput) (verdict : ContentChecker.ValidationResult) :
  Manager.topic_agent agents = Manager.StageSuccess topic ->
  Manager.research_agent agents topic = Manager.StageSuccess report ->
  Manager.writer_agent agents report = Manager.StageSuccess written ->
  Manager.checker_agent agents (Manager.article written) report
    = Manager.StageSuccess verdict ->
  ContentChecker.status verdict = "APPROVED" \/
  ContentChecker.status verdict = "NEEDS_REVISION" ->
  let run := Manager.start_workflow agents workflow_id created_at trigger_type w in
  run.1 =
    inr (workflow_id, "success",
         Manager.mkResult workflow_id "email_sent"
           ("Phase 3 workflow completed successfully - "
            +:+ ContentChecker.status verdict)
           (Some (Manager.mkPreview
                    (ContentChecker.title (Manager.article written))
                    (Manager.metadata_word_count written)
                    (Manager.metadata_images_sourced written)
                    (ContentChecker.quality_score verdict)
                    (ContentChecker.status verdict)))
           (Some verdict) (Some 4%nat)) /\
  Manager.table run.2 !! workflow_id =
    Some (Store.mkRecord (Some "email_sent") (Some created_at) (Some trigger_type)
            (Some 0%Z) (Some 2%Z) (Some "2.0")
            (Some (TopicDiscovery.candidate_title topic))
            (Some (TopicDiscovery.candidate_category topic))
            (Some (ContentChecker.title (Manager.article written)))
            (Some (Manager.generate_token agents workflow_id))
            (Some "awaiting_approval")) /\
  Manager.email_attempts run.2 = Manager.email_attempts w ++ [workflow_id].
Proof.
  intros Htopic Hresearch Hwriter Hchecker Hverdict. cbv zeta.
  unfold Manager.start_workflow, Manager._execute_workflow,
    Manager.execute_workflow_body, Manager.bind, Manager.require_success.
  cbn [Manager._update_workflow_status].
  rewrite Htopic. cbn -[Manager.approval_steps].
  rewrite Hresearch. cbn -[Manager.approval_steps].
  rewrite Hwriter. cbn -[Manager.approval_steps].
  rewrite Hchecker. cbn -[Manager.approval_steps String.eqb].
  assert (Hsteps : forall w0,
    Manager.approval_steps agents workflow_id topic written verdict w0 =
    (inr (Manager.mkResult workflow_id "email_sent"
            ("Phase 3 workflow completed successfully - "
             +:+ ContentChecker.status verdict)
            (Some (Manager.mkPreview
                     (ContentChecker.title (Manager.article written))
                     (Manager.metadata_word_count written)
                     (Manager.metadata_images_sourced written)
                     (ContentChecker.quality_score verdict)
                     (ContentChecker.status verdict)))
            (Some verdict) (Some 4%nat)),
     Manager.mkWorld
       (Store.update_item workflow_id
          (Store.set_article (TopicDiscovery.candidate_title topic)
             (TopicDiscovery.candidate_category topic)
             (ContentChecker.title (Manager.article written)))
          (Store.update_item workflow_id (Store.set_status "email_sent")
             (Store.update_item workflow_id
                (Store.set_approval (Manager.generate_token agents workflow_id))
                (Manager.table w0))))
       (Manager.email_attempts w0 ++ [workflow_id]))).
  { intros w0. unfold Manager.approval_steps, Manager.bind. cbn.
    by destruct (Manager.ses_accepts agents workflow_id). }
  assert (Hbranch :
    (ContentChecker.status verdict =? "APPROVED")%string = true \/
    ((ContentChecker.status verdict =? "APPROVED")%string = false /\
     (ContentChecker.status verdict =? "NEEDS_REVISION")%string = true)).
  { destruct Hverdict as [Hv|Hv]; rewrite Hv; [by left | by right]. }
  destruct Hbranch as [-> | [-> ->]]; cbn -[Manager.approval_steps];
    rewrite Hsteps; cbn [fst snd Manager.table Manager.email_attempts];
    (split; [done|]); (split; [|done]); by record_lookup.
Qed.

(** Every stage succeeds, the verdict is APPROVED, and SES refuses the
    email: the record is the one of an accepted article all the same. *)
Lemma start_workflow_approval_record_witness :
  let ok := ContentChecker.mkCheck true (ContentChecker.ErrorDetails "") in
  let verdict := ContentChecker.validate (ContentChecker.collect_checks ok ok ok ok ok) in
  let topic :=
    TopicDiscovery.mkCandidate "Gravel Cycling Adventures in Rural Sri Lanka"
      ["gravel biking sri lanka"] "Adventure" 1 "Gap category: Adventure" in
  let written :=
    Manager.mkWriterOutput
      (ContentChecker.mkArticle "Gravel Roads of the Hill Country" [] 3000) [] 3000 3 in
  let agents :=
    Manager.mkAgents (Manager.StageSuccess topic)
      (fun _ => Manager.StageSuccess (ContentChecker.mkReport [] []))
      (fun _ => Manager.StageSuccess written)
      (fun _ _ => Manager.StageSuccess verdict)
      (fun _ => "0123456789abcdef0123456789abcdef") (fun _ => false) in
  let run :=
    Manager.start_workflow agents "workflow-1700000000000"
      "2023-11-14T22:13:20+00:00" "daily" (Manager.mkWorld ∅ []) in
  Manager.table run.2 !! "workflow-1700000000000" =
    Some (Store.mkRecord (Some "email_sent") (Some "2023-11-14T22:13:20+00:00")
            (Some "daily") (Some 0%Z) (Some 2%Z) (Some "2.0")
            (Some "Gravel Cycling Adventures in Rural Sri Lanka") (Some "Adventure")
            (Some "Gravel Roads of the Hill Country")
            (Some "0123456789abcdef0123456789abcdef") (Some "awaiting_approval")) /\
  Manager.email_attempts run.2 = ["workflow-1700000000000"].
Proof.
  intros ok verdict topic written agents run.
  destruct (start_workflow_approval_record agents "workflow-1700000000000"
              "2023-11-14T22:13:20+00:00" "daily" (Manager.mkWorld ∅ [])
              topic (ContentChecker.mkReport [] []) written verdict)
    as (_ & Hrecord & Hemail);
    [reflexivity | reflexivity | reflexivity | reflexivity
    | left; by vm_compute |].
  split; [exact Hrecord | exact Hemail].
Defined.





(** ** The retry budget *)

(** One call of [handle_agent_error] for a workflow the table knows. *)
Lemma handle_agent_error_known workflow_id agent_name error retry w r :
  Manager.table w !! workflow_id = Some r ->
  Manager.handle_agent_error workflow_id agent_name error retry w =
    if retry
       && (default 0%Z (Store.retry_count r) <? default 2%Z (Store.max_retries r))%Z
    then
      (inr true,
       Manager.mkWorld
         (<[workflow_id :=
              Store.set_retry_count (default 0%Z (Store.retry_count r) + 1)%Z r]>
            (Manager.table w))
         (Manager.email_attempts w))
    else
      (inr false,
       Manager.mkWorld
         (<[workflow_id := Store.set_status "failed" r]> (Manager.table w))
         (Manager.email_attempts w)).
Proof.
  intros Hr. unfold Manager.handle_agent_error, Manager.get_workflow_state.
  rewrite Hr. cbn [default from_option id].
  destruct (retry && _); cbn; unfold Store.update_item; by rewrite Hr.
Qed.

(** Successive calls: [true] while the budget lasts, [false] from then
    on; the record counts the retries granted and is failed once a call
    was refused. *)
Lemma handle_agent_errors_known workflow_id agent_name errors :
  forall w r,
    Manager.table w !! workflow_id = Some r ->
    let retry_count := default 0%Z (Store.retry_count r) in
    let max_retries := default 2%Z (Store.max_retries r) in
    let budget := Z.to_nat (max_retries - retry_count) in
    let run := Manager.handle_agent_errors workflow_id agent_name errors w in
    run.1 = replicate (min budget (length errors)) true
            ++ replicate (length errors - budget) false /\
    Manager.email_attempts run.2 = Manager.email_attempts w /\
    exists r',
      Manager.table run.2 !! workflow_id = Some r' /\
      default 0%Z (Store.retry_count r')
        = (retry_count + Z.of_nat (min budget (length errors)))%Z /\
      Store.max_retries r' = Store.max_retries r /\
      Store.created_at r' = Store.created_at r /\
      Store.status r'
        = if decide (budget < length errors)%nat then Some "failed" else Store.status r.
Proof.
  induction errors as [|error errors IH]; intros w r Hr; cbv zeta.
  - cbn [Manager.handle_agent_errors length fst snd]. rewrite Nat.min_0_r.
    split; [done|]. split; [done|]. exists r. rewrite Z.add_0_r.
    rewrite decide_False by lia. done.
  - cbn [Manager.handle_agent_errors length].
    rewrite (handle_agent_error_known _ _ _ _ _ r Hr). cbn [andb].
    destruct (Z.ltb_spec (default 0%Z (Store.retry_count r))
                (default 2%Z (Store.max_retries r))) as [Hlt|Hge].
    + match goal with
      | |- context [Manager.handle_agent_errors _ _ _ ?w'] =>
          specialize (IH w' (Store.set_retry_count
                               (default 0%Z (Store.retry_count r) + 1) r));
          destruct (Manager.handle_agent_errors workflow_id agent_name errors w')
            as [answers w''] eqn:Hrun
      end.
      cbn [Manager.table] in IH. rewrite lookup_insert_eq in IH.
      specialize (IH eq_refl). cbv zeta in IH.
      cbn [Store.set_retry_count Store.retry_count Store.max_retries
           Store.created_at Store.status default from_option id fst snd] in IH.
      destruct IH as (Hanswers & Hemail & r' & Hr' & Hcount & Hmax & Hcreated & Hstatus).
      cbn [fst snd].
      set (rc := default 0%Z (Store.retry_count r)) in *.
      set (mr := default 2%Z (Store.max_retries r)) in *.
      assert (Hbudget : Z.to_nat (mr - rc) = S (Z.to_nat (mr - (rc + 1)))) by lia.
      rewrite Hbudget. cbn [Nat.min Nat.sub replicate app].
      split; [by rewrite Hanswers|]. split; [done|]. exists r'.
      split; [done|]. split; [lia|]. split; [done|]. split; [done|].
      rewrite Hstatus. repeat case_decide; (done || lia).
    + match goal with
      | |- context [Manager.handle_agent_errors _ _ _ ?w'] =>
          specialize (IH w' (Store.set_status "failed" r));
          destruct (Manager.handle_agent_errors workflow_id agent_name errors w')
            as [answers w''] eqn:Hrun
      end.
      cbn [Manager.table] in IH. rewrite lookup_insert_eq in IH.
      specialize (IH eq_refl). cbv zeta in IH.
      cbn [Store.set_status Store.retry_count Store.max_retries
           Store.created_at Store.status default from_option id fst snd] in IH.
      destruct IH as (Hanswers & Hemail & r' & Hr' & Hcount & Hmax & Hcreated & Hstatus).
      cbn [fst snd].
      set (rc := default 0%Z (Store.retry_count r)) in *.
      set (mr := default 2%Z (Store.max_retries r)) in *.
      assert (Hbudget : Z.to_nat (mr - rc) = 0%nat) by lia.
      rewrite Hbudget in *. cbn [Nat.min Nat.sub replicate app] in *.
      rewrite Nat.sub_0_r in Hanswers.
      split; [by rewrite Hanswers|]. split; [done|]. exists r'.
      split; [done|]. split; [lia|]. split; [done|]. split; [done|].
      rewrite Hstatus. repeat case_decide; (done || lia).
Qed.



(** ** A workflow after its start *)

(** Whatever the stages do, [start_workflow] leaves a record that holds
    the creation data and whose status is the value of a workflow
    state. *)
Lemma start_workflow_record_fields agents workflow_id created_at trigger_type w :
  let run := Manager.start_workflow agents workflow_id created_at trigger_type w in
  exists r s,
    Manager.table run.2 !! workflow_id = Some r /\
    Store.status r = Some (Manager.value s) /\
    Store.created_at r = Some created_at /\
    Store.trigger_type r = Some trigger_type /\
    Store.retry_count r = Some 0%Z /\
    Store.max_retries r = Some 2%Z /\
    Store.schema_version r = Some "2.0".
Proof.
  cbv zeta.
  unfold Manager.start_workflow, Manager._execute_workflow,
    Manager.execute_workflow_body, Manager.bind, Manager.require_success.
  cbn [Manager._update_workflow_status].
  destruct (Manager.topic_agent agents) as [topic|error|e0];
    cbn -[Manager.approval_steps];
    [| (eexists _, Manager.FAILED; split; [by record_lookup | done])..].
  destruct (Manager.research_agent agents topic) as [report|error|e0];
    cbn -[Manager.approval_steps];
    [| (eexists _, Manager.FAILED; split; [by record_lookup | done])..].
  destruct (Manager.writer_agent agents report) as [written|error|e0];
    cbn -[Manager.approval_steps];
    [| (eexists _, Manager.FAILED; split; [by record_lookup | done])..].
  destruct (Manager.checker_agent agents (Manager.article written) report)
    as [verdict|error|e0];
    cbn -[Manager.approval_steps String.eqb];
    [| (eexists _, Manager.FAILED; split; [by record_lookup | done])..].
  destruct (ContentChecker.status verdict =? "APPROVED")%string;
    [|destruct (ContentChecker.status verdict =? "NEEDS_REVISION")%string];
    cbn -[Manager.approval_steps];
    [| | eexists _, Manager.REJECTED; split; [by record_lookup | done]];
    unfold Manager.approval_steps, Manager.bind; cbn;
    destruct (Manager.ses_accepts agents workflow_id); cbn;
    (eexists _, Manager.EMAIL_SENT; split; [by record_lookup | done]).
Qed.



(** X23. The sweep and the manager's workflows.  The record that
    [start_workflow] leaves, and the record after any number of calls of
    [handle_agent_error] for it, is kept by the sweep of stale workflows
    at every time of the clock, however long ago the workflow was
    created: the sweep asks for the status "awaiting_approval", and the
    manager writes only the values of its workflow states to the status
    (it writes "awaiting_approval" to the approval data). *)
Theorem sweep_keeps_managed_workflow (agents : Manager.Agents)
    (workflow_id created_at trigger_type agent_name : string)
    (errors : list PyError) (w : Manager.World) (now : Clock.datetime) :
  let started :=
    (Manager.start_workflow agents workflow_id created_at trigger_type w).2 in
  let handled :=
    (Manager.handle_agent_errors workflow_id agent_name errors started).2 in
  (exists r,
     Manager.table started !! workflow_id = Some r /\
     (TopicDiscovery._cleanup_stale_workflows now (Manager.table started)).2
       !! workflow_id = Some r) /\
  (exists r,
     Manager.table handled !! workflow_id = Some r /\
     (TopicDiscovery._cleanup_stale_workflows now (Manager.table handled)).2
       !! workflow_id = Some r).
Proof.
  cbv zeta.
  assert (Hkeeps : forall (table : gmap string Store.WorkflowRecord) r,
    table !! workflow_id = Some r ->
    Store.status r <> Some "awaiting_approval" ->
    (TopicDiscovery._cleanup_stale_workflows now table).2 !! workflow_id = Some r).
  { intros table r Hr Hstatus.
    destruct (Clock.minus_24h now) as [e|cutoff] eqn:Hcut.
    - unfold TopicDiscovery._cleanup_stale_workflows. by rewrite Hcut.
    - rewrite (cleanup_lookup now cutoff) by done. rewrite Hr.
      unfold TopicDiscovery.stale. by rewrite bool_decide_eq_false_2. }
  destruct (start_workflow_record_fields agents workflow_id created_at trigger_type w)
    as (r & s & Hr & Hs & _).
  split.
  - exists r. split; [done|]. apply Hkeeps; [done|].
    rewrite Hs. by destruct s.
  - destruct (handle_agent_errors_known workflow_id agent_name errors _ r Hr)
      as (_ & _ & r' & Hr' & _ & _ & _ & Hstatus).
    exists r'. split; [done|]. apply Hkeeps; [done|].
    rewrite Hstatus. case_decide; [done|]. rewrite Hs. by destruct s.
Qed.

(** ** The Lambda handler *)



(** ** The five checks together *)











(** ** From the research report to the checks *)

(** X27. The recommended length.  For the keyword research that
    [_conduct_keyword_research] hands over, the recommended target length
    is "2500-3000 words" when both credentials and the access token are
    there and the topic has a keyword (the simulated volumes 500, 700 and
    900 average to 500, 600 or 700), and "2000-2500 words" in every
    other case, where the static volumes of 400 do not exceed the
    threshold.  "3000-3500 words" is never recommended. *)
Theorem conducted_research_target_length
    (google_ads_client_id google_ads_refresh_token access_token : option string)
    (keywords : list string) (category : string) :
  let keyword_research :=
    Research._conduct_keyword_research google_ads_client_id
      google_ads_refresh_token access_token keywords in
  Research.target_length
    (Research._generate_content_recommendations category keyword_research) =
    if Research.missing google_ads_client_id
       || Research.missing google_ads_refresh_token
       || Research.missing access_token
       || match keywords with [] => true | _ => false end
    then "2000-2500 words" else "2500-3000 words".
Proof.
  cbv zeta. unfold Research._conduct_keyword_research.
  destruct (Research.missing google_ads_client_id),
           (Research.missing google_ads_refresh_token),
           (Research.missing access_token);
    cbn [orb];
    destruct keywords as [|k1 [|k2 [|k3 rest]]]; by vm_compute.
Qed.






